(** * PasswordGenerator: a shallow embedding of [password.py]

    The three functions of the script, [generate_password],
    [generate_multiple_passwords] and [check_password_strength], are
    embedded as computations over the state of the process-wide random
    generator that may raise a Python exception.  The interactive loop
    [main] runs them in a world that adds the terminal: the input still
    to come and the text written so far. *)

From Stdlib Require Import String Ascii List ZArith NArith Bool Lia.
From Stdlib Require DecimalString.
Import ListNotations.
Open Scope Z_scope.

(** ** Python values *)

(** A Python [str] is a sequence of Unicode code points. *)
Definition char := N.
Definition str := list char.

(** The literals of the script are all ASCII, so a literal is its bytes. *)
Definition lit (s : string) : str := map N_of_ascii (list_ascii_of_string s).

(** [len(s)] *)
Definition len {A} (s : list A) : Z := Z.of_nat (List.length s).

(** [c in s] for a one-character [c]. *)
Definition str_in (c : char) (s : str) : bool := existsb (N.eqb c) s.

(** [sep.join(parts)] *)
Fixpoint join (sep : str) (parts : list str) : str :=
  match parts with
  | [] => []
  | [p] => p
  | p :: ps => p ++ sep ++ join sep ps
  end.

(** [range(n)]: empty when [n <= 0]. *)
Definition range (n : Z) : list Z := map Z.of_nat (seq 0 (Z.to_nat n)).

(** [any(f(c) for c in s)] *)
Definition any {A} (f : A -> bool) (s : list A) : bool := existsb f s.

(** [sum(bs)] over a list of booleans, [True] counting 1. *)
Definition sum (bs : list bool) : Z := fold_left (fun acc b => acc + Z.b2z b) bs 0.

(** [d.get(k, default)] on a dict with integer keys, kept as an
    association list in the order of the dict display. *)
Fixpoint dict_get {V} (d : list (Z * V)) (k : Z) (default : V) : V :=
  match d with
  | [] => default
  | (k', v) :: d' => if Z.eqb k k' then v else dict_get d' k default
  end.

(** ** The constants of Python's [string] module *)
Module pystring.
Definition ascii_lowercase : str := lit "abcdefghijklmnopqrstuvwxyz".
Definition ascii_uppercase : str := lit "ABCDEFGHIJKLMNOPQRSTUVWXYZ".
Definition digits : str := lit "0123456789".
End pystring.

(** ** The character database behind [str.islower], [str.isupper] and
    [str.isdigit]

    The tables are CPython's, not the script's: they are an interface
    here.  What the script relies on is their ASCII part. *)
Class UnicodeData := {
  islower : char -> bool;
  isupper : char -> bool;
  isdigit : char -> bool;
  islower_ascii : forall c, (c < 128)%N -> islower c = str_in c pystring.ascii_lowercase;
  isupper_ascii : forall c, (c < 128)%N -> isupper c = str_in c pystring.ascii_uppercase;
  isdigit_ascii : forall c, (c < 128)%N -> isdigit c = str_in c pystring.digits
}.

(** ** Exceptions and the effect monad *)

Inductive exn : Type :=
| ValueError (msg : str)
| IndexError (msg : str).

Inductive outcome (A : Type) : Type :=
| Returned (a : A)
| Raised (e : exn).
Arguments Returned {A} a.
Arguments Raised {A} e.

(** A computation reads and updates the generator state [G] and either
    returns or raises. *)
Definition M (G A : Type) : Type := G -> outcome A * G.

Definition ret {G A} (a : A) : M G A := fun g => (Returned a, g).
Definition raise {G A} (e : exn) : M G A := fun g => (Raised e, g).
Definition bind {G A B} (m : M G A) (k : A -> M G B) : M G B :=
  fun g => match m g with
           | (Returned a, g') => k a g'
           | (Raised e, g') => (Raised e, g')
           end.

Notation "x <- m ;; k" := (bind m (fun x => k))
  (at level 61, m at next level, right associativity).

(** A generator expression [f(x) for x in xs], consumed to the end. *)
Fixpoint mapM {G A B} (f : A -> M G B) (xs : list A) : M G (list B) :=
  match xs with
  | [] => ret []
  | x :: xs' => y <- f x ;; ys <- mapM f xs' ;; ret (y :: ys)
  end.

(** [for x in xs: s = body(x, s)] *)
Fixpoint for_each {G A S} (xs : list A) (body : A -> S -> M G S) (s : S) : M G S :=
  match xs with
  | [] => ret s
  | x :: xs' => s' <- body x s ;; for_each xs' body s'
  end.

(** ** Python's [random] module *)

(** The generator behind the module-level functions: [randbelow n]
    returns an index below [n] and the next state. *)
Class RandomSource (G : Type) := {
  randbelow : nat -> G -> nat * G;
  randbelow_lt : forall n g, (0 < n)%nat -> (fst (randbelow n g) < n)%nat
}.

Module random.
(** [random.choice(seq)] is [seq[randbelow(len(seq))]]; an empty
    sequence raises [IndexError]. *)
Definition choice {G} `{RandomSource G} (seq : str) : M G char :=
  fun g =>
    match seq with
    | [] => (Raised (IndexError (lit "Cannot choose from an empty sequence")), g)
    | _ :: _ =>
        let (i, g') := randbelow (List.length seq) g in
        match nth_error seq i with
        | Some c => (Returned c, g')
        | None => (Raised (IndexError (lit "string index out of range")), g')
        end
    end.
End random.

(** ** The script *)

Section Script.
Context {G : Type} `{RandomSource G} `{UnicodeData}.

(** Lines 20-29: the pool, grown class by class. *)
Definition character_pool (use_uppercase use_lowercase use_digits use_symbols : bool) : str :=
  let character_pool := lit "" in
  let character_pool :=
    if use_lowercase then character_pool ++ pystring.ascii_lowercase else character_pool in
  let character_pool :=
    if use_uppercase then character_pool ++ pystring.ascii_uppercase else character_pool in
  let character_pool :=
    if use_digits then character_pool ++ pystring.digits else character_pool in
  let character_pool :=
    if use_symbols then character_pool ++ lit "!@#$%^&*()_+-=[]{}|;:,.<>?" else character_pool in
  character_pool.

(** The truth value of a string: [not s] holds of the empty one. *)
Definition truthy (s : str) : bool := match s with [] => false | _ => true end.

Definition generate_password
    (length : Z) (use_uppercase use_lowercase use_digits use_symbols : bool) : M G str :=
  let character_pool := character_pool use_uppercase use_lowercase use_digits use_symbols in
  if negb (truthy character_pool) then
    raise (ValueError (lit "At least one character type must be selected!"))
  else
    drawn <- mapM (fun _ => random.choice character_pool) (range length) ;;
    let password := join (lit "") (map (fun c => [c]) drawn) in
    ret password.

(** A call site leaves out the parameters it does not pass; the
    [def] line supplies them. *)
Definition default {A} (d : A) (o : option A) : A :=
  match o with Some a => a | None => d end.

(** The class flags a caller passes by keyword ([**kwargs]). *)
Record kwargs : Type := {
  kw_use_uppercase : option bool;
  kw_use_lowercase : option bool;
  kw_use_digits : option bool;
  kw_use_symbols : option bool
}.

Definition no_kwargs : kwargs :=
  {| kw_use_uppercase := None; kw_use_lowercase := None;
     kw_use_digits := None; kw_use_symbols := None |}.

(** Line 4: [def generate_password(length=12, use_uppercase=True,
    use_lowercase=True, use_digits=True, use_symbols=True)]. *)
Definition call_generate_password (length : option Z) (kw : kwargs) : M G str :=
  generate_password (default 12 length)
    (default true (kw_use_uppercase kw)) (default true (kw_use_lowercase kw))
    (default true (kw_use_digits kw)) (default true (kw_use_symbols kw)).

Definition generate_multiple_passwords (count length : Z) (kw : kwargs) : M G (list str) :=
  let passwords := [] in
  passwords <- for_each (range count)
                 (fun _ passwords =>
                    p <- call_generate_password (Some length) kw ;;
                    ret (passwords ++ [p]))
                 passwords ;;
  ret passwords.

(** Line 40: [def generate_multiple_passwords(count=5, length=12, **kwargs)]. *)
Definition call_generate_multiple_passwords
    (count length : option Z) (kw : kwargs) : M G (list str) :=
  generate_multiple_passwords (default 5 count) (default 12 length) kw.

(** The dict returned by [check_password_strength], one field per key. *)
Record StrengthReport : Type := {
  score : Z;
  strength : str;
  length : Z;
  has_lowercase : bool;
  has_uppercase : bool;
  has_digits : bool;
  has_symbols : bool
}.

Definition check_password_strength (password : str) : M G StrengthReport :=
  let has_lower := any islower password in
  let has_upper := any isupper password in
  let has_digit := any isdigit password in
  let has_symbol := any (fun c => str_in c (lit "!@#$%^&*()_+-=[]{}|;:,.<>?")) password in
  let score := sum [has_lower; has_upper; has_digit; has_symbol] in
  let strength_levels :=
    [(1, lit "Weak"); (2, lit "Fair"); (3, lit "Good"); (4, lit "Strong")] in
  ret {| score := score;
         strength := dict_get strength_levels score (lit "Very Weak");
         length := len password;
         has_lowercase := has_lower;
         has_uppercase := has_upper;
         has_digits := has_digit;
         has_symbols := has_symbol |}.

End Script.

(** ** Statement vocabulary *)

(** [c] belongs to the alphabet of one of the selected classes. *)
Definition in_selected_classes
    (use_uppercase use_lowercase use_digits use_symbols : bool) (c : char) : Prop :=
  (use_lowercase = true /\ In c pystring.ascii_lowercase) \/
  (use_uppercase = true /\ In c pystring.ascii_uppercase) \/
  (use_digits = true /\ In c pystring.digits) \/
  (use_symbols = true /\ In c (lit "!@#$%^&*()_+-=[]{}|;:,.<>?")).

(** The flags a keyword dictionary selects once the defaults are filled in. *)
Definition kw_selected (kw : kwargs) (c : char) : Prop :=
  in_selected_classes
    (default true (kw_use_uppercase kw)) (default true (kw_use_lowercase kw))
    (default true (kw_use_digits kw)) (default true (kw_use_symbols kw)) c.

Definition kw_any (kw : kwargs) : bool :=
  default true (kw_use_uppercase kw) || default true (kw_use_lowercase kw)
  || default true (kw_use_digits kw) || default true (kw_use_symbols kw).

Definition flags (use_uppercase use_lowercase use_digits use_symbols : bool) : kwargs :=
  {| kw_use_uppercase := Some use_uppercase; kw_use_lowercase := Some use_lowercase;
     kw_use_digits := Some use_digits; kw_use_symbols := Some use_symbols |}.

(** Every code point of [s] is ASCII. *)
Definition all_ascii (s : str) : bool := forallb (fun c => (c <? 128)%N) s.

(** ** The interactive loop [main] *)

(** [a == b] on strings. *)
Fixpoint str_eqb (a b : str) : bool :=
  match a, b with
  | [], [] => true
  | x :: a', y :: b' => N.eqb x y && str_eqb a' b'
  | _, _ => false
  end.

(** [s * n] *)
Definition str_mul (s : str) (n : Z) : str := concat (repeat s (Z.to_nat n)).

(** The newline the script writes as a backslash escape. *)
Definition nl : str := [10%N].

(** [str(z)] for an integer, as an f-string field prints it. *)
Definition str_of_int (z : Z) : str :=
  lit (DecimalString.NilZero.string_of_int (Z.to_int z)).

(** The format spec [{z:<width>d}]: decimal, padded with spaces on the
    left up to [width]. *)
Definition format_d (width : nat) (z : Z) : str :=
  let s := str_of_int z in
  repeat 32%N (width - List.length s) ++ s.

(** [enumerate(xs, start)] *)
Fixpoint enumerate {A} (xs : list A) (start : Z) : list (Z * A) :=
  match xs with
  | [] => []
  | x :: xs' => (start, x) :: enumerate xs' (start + 1)
  end.

(** The two built-ins whose tables are CPython's: [int(s)] on a string,
    giving the value or the message of the [ValueError] it raises, and
    [s.lower()]. *)
Class Builtins := {
  int_of_str : str -> Z + str;
  lower : str -> str
}.

(** What the terminal sends: a line, without its newline, or Ctrl-C
    while the script waits for one.  When the list is used up the
    input is at its end. *)
Inductive event : Type :=
| Line (s : str)
| CtrlC.

(** The state [main] runs in: the random generator, the input still to
    come and the text written so far. *)
Record world (G : Type) : Type := {
  w_rng : G;
  w_stdin : list event;
  w_stdout : str
}.
Arguments w_rng {G} w.
Arguments w_stdin {G} w.
Arguments w_stdout {G} w.

(** The exceptions [main] meets: those of the core, and the two that
    [input] raises. *)
Inductive pyexc : Type :=
| Exn (e : exn)
| KeyboardInterrupt
| EOFError.

Inductive result (A : Type) : Type :=
| Ok (a : A)
| Err (e : pyexc).
Arguments Ok {A} a.
Arguments Err {A} e.

Definition IO (G A : Type) : Type := world G -> result A * world G.

Definition io_ret {G A} (a : A) : IO G A := fun w => (Ok a, w).
Definition io_raise {G A} (e : pyexc) : IO G A := fun w => (Err e, w).
Definition io_bind {G A B} (m : IO G A) (k : A -> IO G B) : IO G B :=
  fun w => match m w with
           | (Ok a, w') => k a w'
           | (Err e, w') => (Err e, w')
           end.

Notation "x <~ m ;; k" := (io_bind m (fun x => k))
  (at level 61, m at next level, right associativity).

(** [print(s)] *)
Definition print {G} (s : str) : IO G unit :=
  fun w => (Ok tt, {| w_rng := w_rng w; w_stdin := w_stdin w;
                      w_stdout := w_stdout w ++ s ++ nl |}).

(** [input(prompt)]: writes the prompt, then waits for a line. *)
Definition input {G} (prompt : str) : IO G str :=
  fun w =>
    let out := w_stdout w ++ prompt in
    match w_stdin w with
    | [] => (Err EOFError, {| w_rng := w_rng w; w_stdin := []; w_stdout := out |})
    | Line s :: rest =>
        (Ok s, {| w_rng := w_rng w; w_stdin := rest; w_stdout := out |})
    | CtrlC :: rest =>
        (Err KeyboardInterrupt, {| w_rng := w_rng w; w_stdin := rest; w_stdout := out |})
    end.

(** A call of one of the three functions of the script. *)
Definition call {G A} (m : M G A) : IO G A :=
  fun w =>
    match m (w_rng w) with
    | (Returned a, g') =>
        (Ok a, {| w_rng := g'; w_stdin := w_stdin w; w_stdout := w_stdout w |})
    | (Raised e, g') =>
        (Err (Exn e), {| w_rng := g'; w_stdin := w_stdin w; w_stdout := w_stdout w |})
    end.

(** [for x in xs: body(x)] *)
Fixpoint io_for {G A} (xs : list A) (body : A -> IO G unit) : IO G unit :=
  match xs with
  | [] => io_ret tt
  | x :: xs' => _ <~ body x ;; io_for xs' body
  end.

(** What ends one pass of [while True]. *)
Inductive flow : Type :=
| Continue
| Break.

Section Main.
Context {G : Type} `{RandomSource G} `{UnicodeData} `{Builtins}.

(** [int(s or d)] *)
Definition int_or (s : str) (d : Z) : IO G Z :=
  if truthy s then
    match int_of_str s with
    | inl z => io_ret z
    | inr msg => io_raise (Exn (ValueError msg))
    end
  else io_ret d.

(** Lines 88-124: the body of the [try].  The script's variable
    [length] is [pw_length] here, [length] being the report's field. *)
Definition try_body : IO G unit :=
  _ <~ print (nl ++ lit "Password Options:") ;;
  answer <~ input (lit "Enter password length (default 12): ") ;;
  pw_length <~ int_or answer 12 ;;
  _ <~ print (nl ++ lit "Character types to include:") ;;
  answer <~ input (lit "Include lowercase letters? (Y/n): ") ;;
  let use_lowercase := negb (str_eqb (lower answer) (lit "n")) in
  answer <~ input (lit "Include uppercase letters? (Y/n): ") ;;
  let use_uppercase := negb (str_eqb (lower answer) (lit "n")) in
  answer <~ input (lit "Include numbers? (Y/n): ") ;;
  let use_digits := negb (str_eqb (lower answer) (lit "n")) in
  answer <~ input (lit "Include symbols? (Y/n): ") ;;
  let use_symbols := negb (str_eqb (lower answer) (lit "n")) in
  answer <~ input (lit "How many passwords to generate? (default 1): ") ;;
  count <~ int_or answer 1 ;;
  _ <~ print (nl ++ lit " Generated Password"
             ++ (if count >? 1 then lit "s" else lit "") ++ lit ":") ;;
  _ <~ print (str_mul (lit "-") 40) ;;
  if count =? 1 then
    password <~ call (generate_password pw_length use_uppercase use_lowercase
                        use_digits use_symbols) ;;
    _ <~ print (lit "Password: " ++ password) ;;
    report <~ call (check_password_strength password) ;;
    _ <~ print (lit "Strength: " ++ strength report
               ++ lit " (" ++ str_of_int (score report) ++ lit "/4)") ;;
    print (lit "Length: " ++ str_of_int (length report) ++ lit " characters")
  else
    passwords <~ call (generate_multiple_passwords count pw_length
                         (flags use_uppercase use_lowercase use_digits use_symbols)) ;;
    io_for (enumerate passwords 1)
      (fun '(i, pwd) =>
         report <~ call (check_password_strength pwd) ;;
         print (format_d 2 i ++ lit ". " ++ pwd
                ++ lit " (Strength: " ++ strength report ++ lit ")")).

(** Lines 133-137: after a pass that raised nothing. *)
Definition ask_again : IO G flow :=
  answer <~ input (nl ++ lit "Generate more passwords? (Y/n): ") ;;
  let again := lower answer in
  if str_eqb again (lit "n") then
    _ <~ print (lit "Thanks for using the password generator!") ;;
    io_ret Break
  else io_ret Continue.

(** Lines 87-137: one pass of the loop, with the two handlers. *)
Definition iteration : IO G flow :=
  fun w =>
    match try_body w with
    | (Ok _, w') => ask_again w'
    | (Err (Exn (ValueError msg)), w') =>
        (_ <~ print (lit "Error: " ++ msg) ;; io_ret Continue) w'
    | (Err KeyboardInterrupt, w') =>
        (_ <~ print (nl ++ nl ++ lit " Thanks for using the password generator!") ;;
         io_ret Break) w'
    | (Err e, w') => (Err e, w')
    end.

(** [while True], with a bound on the number of passes; [None] when
    the bound is reached. *)
Fixpoint while_true (passes : nat) (w : world G) : option (result unit * world G) :=
  match passes with
  | O => None
  | S passes' =>
      match iteration w with
      | (Ok Continue, w') => while_true passes' w'
      | (Ok Break, w') => Some (Ok tt, w')
      | (Err e, w') => Some (Err e, w')
      end
  end.

Definition main (passes : nat) (w : world G) : option (result unit * world G) :=
  match (_ <~ print (lit "Welcome to the Python Password Generator!") ;;
         print (str_mul (lit "=") 40)) w with
  | (Ok _, w') => while_true passes w'
  | (Err e, w') => Some (Err e, w')
  end.

End Main.

(** [answer] to a question with default [d] is read as the integer [z]:
    an empty answer is the default, any other goes through [int]. *)
Definition reads_int `{Builtins} (answer : str) (d z : Z) : Prop :=
  (answer = [] /\ z = d) \/ (answer <> [] /\ int_of_str answer = inl z).

(** [answer] deselects a class, or declines another round. *)
Definition says_no `{Builtins} (answer : str) : bool :=
  str_eqb (lower answer) (lit "n").

(** The label [check_password_strength] gives a password. *)
Definition label_of `{UnicodeData} (password : str) : str :=
  match fst (check_password_strength password tt) with
  | Returned report => strength report
  | Raised _ => lit ""
  end.

(** The line [main] prints for the [i]-th password of a batch. *)
Definition batch_line `{UnicodeData} (numbered : Z * str) : str :=
  let '(i, pwd) := numbered in
  format_d 2 i ++ lit ". " ++ pwd ++ lit " (Strength: " ++ label_of pwd ++ lit ")" ++ nl.

(** The table of labels of [check_password_strength]. *)
Definition strength_levels : list (Z * str) :=
  [(1, lit "Weak"); (2, lit "Fair"); (3, lit "Good"); (4, lit "Strong")].

(** [c] is ASCII and [l], [u], [d], [s] say to which of the four
    alphabets it belongs. *)
Definition has_class (l u d s : bool) (c : char) : Prop :=
  (c < 128)%N /\
  str_in c pystring.ascii_lowercase = l /\
  str_in c pystring.ascii_uppercase = u /\
  str_in c pystring.digits = d /\
  str_in c (lit "!@#$%^&*()_+-=[]{}|;:,.<>?") = s.

Definition class_is (l u d s : bool) (c : char) : bool :=
  (c <? 128)%N
  && Bool.eqb (str_in c pystring.ascii_lowercase) l
  && Bool.eqb (str_in c pystring.ascii_uppercase) u
  && Bool.eqb (str_in c pystring.digits) d
  && Bool.eqb (str_in c (lit "!@#$%^&*()_+-=[]{}|;:,.<>?")) s.

(** [c] belongs to one of the four alphabets at most. *)
Definition one_class_at_most (c : char) : bool :=
  Z.b2z (str_in c pystring.ascii_lowercase) + Z.b2z (str_in c pystring.ascii_uppercase)
  + Z.b2z (str_in c pystring.digits)
  + Z.b2z (str_in c (lit "!@#$%^&*()_+-=[]{}|;:,.<>?")) <=? 1.

(** [m] never lengthens the input still to come, and raises only
    exceptions that satisfy [P]. *)
Definition obeys {G A} (P : pyexc -> Prop) (m : IO G A) : Prop :=
  forall w,
    (List.length (w_stdin (snd (m w))) <= List.length (w_stdin w))%nat /\
    match fst (m w) with
    | Ok _ => True
    | Err e => P e
    end.

(** The exceptions the body of the [try] can raise. *)
Definition try_exception (e : pyexc) : Prop :=
  e = KeyboardInterrupt \/ e = EOFError \/ exists msg, e = Exn (ValueError msg).

(** The exceptions that leave [main]. *)
Definition escaping (e : pyexc) : Prop := e = KeyboardInterrupt \/ e = EOFError.

(** A world about to start, with nothing written yet. *)
Definition start {G} (g : G) (events : list event) : world G :=
  {| w_rng := g; w_stdin := events; w_stdout := [] |}.

(** ** Concrete instances, used to run the script *)

(** A linear congruential generator on 31 bits. *)
Definition lcg_next (s : N) : N := ((s * 1103515245 + 12345) mod 2147483648)%N.

Definition lcg_randbelow (n : nat) (s : N) : nat * N :=
  (N.to_nat ((lcg_next s / 65536) mod N.of_nat n), lcg_next s).

Lemma lcg_randbelow_lt (n : nat) (s : N) :
  (0 < n)%nat -> (fst (lcg_randbelow n s) < n)%nat.
Proof.
  intros Hn. unfold lcg_randbelow. cbn [fst].
  assert (Hlt : ((lcg_next s / 65536) mod N.of_nat n < N.of_nat n)%N)
    by (apply N.mod_lt; lia).
  lia.
Qed.

#[export] Instance lcg : RandomSource N :=
  {| randbelow := lcg_randbelow; randbelow_lt := lcg_randbelow_lt |}.

(** The Latin-1 part of the character database (code points below 256). *)
Definition between (lo hi c : N) : bool := ((lo <=? c) && (c <=? hi))%N.

Definition latin1_islower (c : char) : bool :=
  between 97 122 c || N.eqb c 170 || N.eqb c 181 || N.eqb c 186
  || between 223 246 c || between 248 255 c.

Definition latin1_isupper (c : char) : bool :=
  between 65 90 c || between 192 214 c || between 216 222 c.

Definition latin1_isdigit (c : char) : bool :=
  between 48 57 c || N.eqb c 178 || N.eqb c 179 || N.eqb c 185.

Definition below (n : nat) : list N := map N.of_nat (seq 0 n).

Lemma below_In (n : nat) (c : N) : (c < N.of_nat n)%N -> In c (below n).
Proof.
  intros Hc. unfold below. apply in_map_iff.
  exists (N.to_nat c). split; [lia | apply in_seq; lia].
Qed.

Lemma agree_below (n : nat) (f g : N -> bool) :
  forallb (fun c => Bool.eqb (f c) (g c)) (below n) = true ->
  forall c, (c < N.of_nat n)%N -> f c = g c.
Proof.
  intros Hall c Hc. rewrite forallb_forall in Hall.
  apply eqb_prop, Hall, below_In, Hc.
Qed.

Lemma latin1_islower_ascii (c : char) :
  (c < 128)%N -> latin1_islower c = str_in c pystring.ascii_lowercase.
Proof.
  apply (agree_below 128 latin1_islower (fun c => str_in c pystring.ascii_lowercase)).
  vm_compute. reflexivity.
Qed.

Lemma latin1_isupper_ascii (c : char) :
  (c < 128)%N -> latin1_isupper c = str_in c pystring.ascii_uppercase.
Proof.
  apply (agree_below 128 latin1_isupper (fun c => str_in c pystring.ascii_uppercase)).
  vm_compute. reflexivity.
Qed.

Lemma latin1_isdigit_ascii (c : char) :
  (c < 128)%N -> latin1_isdigit c = str_in c pystring.digits.
Proof.
  apply (agree_below 128 latin1_isdigit (fun c => str_in c pystring.digits)).
  vm_compute. reflexivity.
Qed.

#[export] Instance latin1 : UnicodeData :=
  {| islower := latin1_islower; isupper := latin1_isupper; isdigit := latin1_isdigit;
     islower_ascii := latin1_islower_ascii;
     isupper_ascii := latin1_isupper_ascii;
     isdigit_ascii := latin1_isdigit_ascii |}.

(** Stand-ins for the two built-ins: [int] on decimal literals with an
    optional sign, [lower] on the ASCII letters. *)
Definition ascii_string (s : str) : string :=
  string_of_list_ascii (map ascii_of_N s).

Definition decimal_int_of_str (s : str) : Z + str :=
  match (if all_ascii s then DecimalString.NilZero.int_of_string (ascii_string s)
         else None) with
  | Some d => inl (Z.of_int d)
  | None => inr (lit "invalid literal for int() with base 10: '" ++ s ++ lit "'")
  end.

Definition ascii_lower (s : str) : str :=
  map (fun c => if between 65 90 c then (c + 32)%N else c) s.

#[export] Instance ascii_builtins : Builtins :=
  {| int_of_str := decimal_int_of_str; lower := ascii_lower |}.

(** A source that always draws index 0. *)

Definition first_randbelow (n : nat) (g : unit) : nat * unit := (0%nat, g).

Lemma first_randbelow_lt (n : nat) (g : unit) :
  (0 < n)%nat -> (fst (first_randbelow n g) < n)%nat.
Proof. intros Hn. exact Hn. Qed.

Definition first_index : RandomSource unit :=
  {| randbelow := first_randbelow; randbelow_lt := first_randbelow_lt |}.

(** ** Basic facts about the Python primitives *)

Lemma range_length (n : Z) : List.length (range n) = Z.to_nat n.
Proof. unfold range. rewrite length_map, length_seq. reflexivity. Qed.

Lemma range_nonpos (n : Z) : n <= 0 -> range n = [].
Proof.
  intros Hn. unfold range. replace (Z.to_nat n) with 0%nat by lia. reflexivity.
Qed.

Lemma range_pos (n : Z) : 1 <= n -> exists x xs, range n = x :: xs.
Proof.
  intros Hn. unfold range.
  destruct (Z.to_nat n) as [|k] eqn:E; [lia|].
  cbn [seq map]. eauto.
Qed.

Lemma join_chars (cs : list char) : join (lit "") (map (fun c => [c]) cs) = cs.
Proof.
  induction cs as [|c cs IH]; [reflexivity|].
  destruct cs as [|c' cs]; [reflexivity|].
  change (join (lit "") (map (fun c => [c]) (c :: c' :: cs)))
    with ([c] ++ lit "" ++ join (lit "") (map (fun c => [c]) (c' :: cs))).
  rewrite IH. reflexivity.
Qed.

Lemma str_in_In (c : char) (s : str) : str_in c s = true <-> In c s.
Proof.
  unfold str_in. rewrite existsb_exists. split.
  - intros (x & Hx & Heq). apply N.eqb_eq in Heq. subst. exact Hx.
  - intros Hc. exists c. split; [exact Hc | apply N.eqb_refl].
Qed.

Lemma any_exists {A} (f : A -> bool) (s : list A) :
  any f s = true <-> exists c, In c s /\ f c = true.
Proof. unfold any. apply existsb_exists. Qed.

Lemma any_ext_on {A} (P : A -> Prop) (f g : A -> bool) (s : list A) :
  (forall c, P c -> f c = g c) -> Forall P s -> any f s = any g s.
Proof.
  intros Hfg Hs. induction Hs as [|c s Hc _ IH]; [reflexivity|].
  cbn. rewrite (Hfg c Hc). unfold any in IH. rewrite IH. reflexivity.
Qed.

Lemma bind_Returned {G A B} (m : M G A) (k : A -> M G B) (g : G) (a : A) (g' : G) :
  m g = (Returned a, g') -> bind m k g = k a g'.
Proof. intros E. unfold bind. rewrite E. reflexivity. Qed.

Lemma bind_Raised {G A B} (m : M G A) (k : A -> M G B) (g : G) (e : exn) (g' : G) :
  m g = (Raised e, g') -> bind m k g = (Raised e, g').
Proof. intros E. unfold bind. rewrite E. reflexivity. Qed.

(** ** The pool *)

Lemma character_pool_concat (uu ul ud us : bool) :
  character_pool uu ul ud us =
  (if ul then pystring.ascii_lowercase else []) ++
  (if uu then pystring.ascii_uppercase else []) ++
  (if ud then pystring.digits else []) ++
  (if us then lit "!@#$%^&*()_+-=[]{}|;:,.<>?" else []).
Proof.
  unfold character_pool. change (lit "") with (@nil char).
  destruct ul, uu, ud, us; cbn [app]; rewrite ?app_nil_r, <- ?app_assoc; reflexivity.
Qed.

Lemma character_pool_truthy (uu ul ud us : bool) :
  truthy (character_pool uu ul ud us) = uu || ul || ud || us.
Proof. destruct uu, ul, ud, us; reflexivity. Qed.

Lemma character_pool_In (uu ul ud us : bool) (c : char) :
  In c (character_pool uu ul ud us) <-> in_selected_classes uu ul ud us c.
Proof.
  rewrite character_pool_concat. unfold in_selected_classes.
  rewrite !in_app_iff.
  destruct ul, uu, ud, us; cbn [In]; intuition congruence.
Qed.

(** ** Drawing from a non-empty pool *)

Section Drawing.
Context {G : Type} `{RandomSource G}.

Lemma choice_returns (pool : str) (g : G) :
  pool <> [] ->
  exists c g', random.choice pool g = (Returned c, g') /\ In c pool.
Proof.
  intros Hne. unfold random.choice.
  destruct pool as [|a l]; [congruence|]. cbv beta iota.
  remember (a :: l) as pool eqn:Epool.
  assert (Hpos : (0 < List.length pool)%nat) by (subst pool; cbn; lia).
  pose proof (randbelow_lt (List.length pool) g Hpos) as Hlt.
  destruct (randbelow (List.length pool) g) as [i g'].
  cbn [fst] in Hlt.
  destruct (nth_error pool i) as [c|] eqn:En.
  - exists c, g'. split; [reflexivity|].
    eapply nth_error_In, En.
  - apply nth_error_None in En. lia.
Qed.

Lemma mapM_choice (pool : str) :
  pool <> [] ->
  forall (xs : list Z) (g : G),
  exists cs g',
    mapM (fun _ => random.choice pool) xs g = (Returned cs, g') /\
    List.length cs = List.length xs /\
    Forall (fun c => In c pool) cs.
Proof.
  intros Hne xs. induction xs as [|x xs IH]; intros g.
  - exists [], g. repeat split. constructor.
  - destruct (choice_returns pool g Hne) as (c & g1 & Ec & Hc).
    destruct (IH g1) as (cs & g2 & Ecs & Hlen & Hall).
    exists (c :: cs), g2. split; [|split].
    + cbn [mapM]. unfold bind. rewrite Ec, Ecs. reflexivity.
    + cbn. rewrite Hlen. reflexivity.
    + constructor; assumption.
Qed.

Lemma generate_password_invalid (length : Z) (g : G) :
  generate_password length false false false false g =
  (Raised (ValueError (lit "At least one character type must be selected!")), g).
Proof. reflexivity. Qed.

Lemma generate_password_valid (length : Z) (uu ul ud us : bool) (g : G) :
  uu || ul || ud || us = true ->
  exists password g',
    generate_password length uu ul ud us g = (Returned password, g') /\
    List.length password = Z.to_nat length /\
    Forall (in_selected_classes uu ul ud us) password.
Proof.
  intros Hsel. unfold generate_password.
  rewrite character_pool_truthy, Hsel. cbn [negb].
  assert (Hne : character_pool uu ul ud us <> []).
  { intros E. pose proof (character_pool_truthy uu ul ud us) as Ht.
    rewrite E, Hsel in Ht. discriminate. }
  destruct (mapM_choice _ Hne (range length) g) as (cs & g' & Ecs & Hlen & Hall).
  exists cs, g'. split; [|split].
  - unfold bind. rewrite Ecs, join_chars. reflexivity.
  - rewrite Hlen. apply range_length.
  - eapply Forall_impl; [|exact Hall].
    intros c. apply character_pool_In.
Qed.

End Drawing.

(** ** The batch loop *)

Section Batch.
Context {G : Type} `{RandomSource G}.

Lemma batch_loop (length : Z) (kw : kwargs) :
  kw_any kw = true ->
  forall (xs : list Z) (acc : list str) (g : G),
  exists pws g',
    for_each xs
      (fun _ passwords =>
         p <- call_generate_password (Some length) kw ;; ret (passwords ++ [p]))
      acc g = (Returned (acc ++ pws), g') /\
    List.length pws = List.length xs /\
    Forall (fun pw => List.length pw = Z.to_nat length /\ Forall (kw_selected kw) pw) pws.
Proof.
  intros Hsel xs. induction xs as [|x xs IH]; intros acc g.
  - exists [], g. rewrite app_nil_r. repeat split. constructor.
  - destruct (generate_password_valid length _ _ _ _ g Hsel)
      as (p & g1 & Ep & Hlen & Hall).
    destruct (IH (acc ++ [p]) g1) as (pws & g2 & Eloop & Hcount & Hpws).
    exists (p :: pws), g2. split; [|split].
    + cbn [for_each]. rewrite (bind_Returned _ _ g (acc ++ [p]) g1).
      * rewrite Eloop, <- app_assoc. reflexivity.
      * rewrite (bind_Returned _ _ g p g1); [reflexivity | exact Ep].
    + cbn. rewrite Hcount. reflexivity.
    + constructor; [split; assumption | assumption].
Qed.

Lemma generate_multiple_passwords_valid (count length : Z) (kw : kwargs) (g : G) :
  kw_any kw = true ->
  exists pws g',
    generate_multiple_passwords count length kw g = (Returned pws, g') /\
    List.length pws = Z.to_nat count /\
    Forall (fun pw => List.length pw = Z.to_nat length /\ Forall (kw_selected kw) pw) pws.
Proof.
  intros Hsel.
  destruct (batch_loop length kw Hsel (range count) [] g)
    as (pws & g' & Eloop & Hcount & Hpws).
  exists pws, g'. split; [|split].
  - unfold generate_multiple_passwords.
    rewrite (bind_Returned _ _ g pws g'); [reflexivity | exact Eloop].
  - rewrite Hcount. apply range_length.
  - exact Hpws.
Qed.

Lemma generate_multiple_passwords_empty (count length : Z) (kw : kwargs) (g : G) :
  count <= 0 ->
  generate_multiple_passwords count length kw g = (Returned [], g).
Proof.
  intros Hcount. unfold generate_multiple_passwords.
  rewrite (range_nonpos count Hcount). reflexivity.
Qed.

Lemma generate_multiple_passwords_invalid (count length : Z) (kw : kwargs) (g : G) :
  kw_any kw = false -> 1 <= count ->
  generate_multiple_passwords count length kw g =
  (Raised (ValueError (lit "At least one character type must be selected!")), g).
Proof.
  intros Hsel Hcount. unfold generate_multiple_passwords.
  destruct (range_pos count Hcount) as (x & xs & Erange). rewrite Erange.
  unfold kw_any in Hsel.
  apply orb_false_elim in Hsel as [Hsel Hs].
  apply orb_false_elim in Hsel as [Hsel Hd].
  apply orb_false_elim in Hsel as [Hu Hl].
  cbn [for_each]. unfold bind, call_generate_password.
  rewrite Hu, Hl, Hd, Hs. reflexivity.
Qed.

End Batch.

(** ** The scorer *)

Section Scorer.
Context `{UnicodeData}.

Lemma sum_flags (a b c d : bool) :
  sum [a; b; c; d] = Z.b2z a + Z.b2z b + Z.b2z c + Z.b2z d.
Proof. unfold sum. cbn [fold_left]. lia. Qed.

Lemma b2z_range (b : bool) : 0 <= Z.b2z b <= 1.
Proof. destruct b; cbn; lia. Qed.

Lemma lit_ascii (s : string) : Forall (fun c => (c < 128)%N) (lit s) ->
  any islower (lit s) = any (fun c => str_in c pystring.ascii_lowercase) (lit s) /\
  any isupper (lit s) = any (fun c => str_in c pystring.ascii_uppercase) (lit s) /\
  any isdigit (lit s) = any (fun c => str_in c pystring.digits) (lit s).
Proof.
  intros Hs. repeat split.
  - apply (any_ext_on (fun c => (c < 128)%N)); [apply islower_ascii | exact Hs].
  - apply (any_ext_on (fun c => (c < 128)%N)); [apply isupper_ascii | exact Hs].
  - apply (any_ext_on (fun c => (c < 128)%N)); [apply isdigit_ascii | exact Hs].
Qed.

Lemma all_ascii_Forall (s : str) :
  all_ascii s = true -> Forall (fun c => (c < 128)%N) s.
Proof.
  unfold all_ascii. rewrite forallb_forall, Forall_forall.
  intros Hs c Hc. apply N.ltb_lt, Hs, Hc.
Qed.

End Scorer.

(** ** The script at work *)

Example generate_password_seed_42 :
  fst (generate_password 12 true true true true 42%N) = Returned (lit "+XTDOLLmbr[s").
Proof. reflexivity. Qed.

Example generate_multiple_passwords_seed_7 :
  fst (generate_multiple_passwords 3 5 no_kwargs 7%N)
  = Returned [lit "CMS67"; lit "vcw$b"; lit "Lt!cT"].
Proof. reflexivity. Qed.

(** U+00E9, a lowercase letter outside ASCII, counts as lowercase. *)
Example check_password_strength_e_acute :
  fst (check_password_strength [233%N] 0%N)
  = Returned {| score := 1; strength := lit "Weak"; length := 1;
                has_lowercase := true; has_uppercase := false;
                has_digits := false; has_symbols := false |}.
Proof. reflexivity. Qed.

(** ** The claims *)

(** C1. With at least one class flag true and a length [L >= 0],
    [generate_password] returns, whatever the state of the random source,
    a string of length exactly [L], each character of which belongs to
    the alphabet of one of the selected classes. *)
Theorem generate_password_length_and_alphabet
    {G : Type} `{RandomSource G}
    (length : Z) (use_uppercase use_lowercase use_digits use_symbols : bool) (g : G) :
  use_uppercase || use_lowercase || use_digits || use_symbols = true ->
  0 <= length ->
  exists password g',
    generate_password length use_uppercase use_lowercase use_digits use_symbols g
      = (Returned password, g') /\
    len password = length /\
    Forall (in_selected_classes use_uppercase use_lowercase use_digits use_symbols) password.
Proof.
  intros Hsel Hlen.
  destruct (generate_password_valid length _ _ _ _ g Hsel) as (pw & g' & E & Hl & Hall).
  exists pw, g'. repeat split; try assumption.
  unfold len. lia.
Qed.

Lemma generate_password_length_and_alphabet_witness :
  (true || false || true || false = true /\ 0 <= 8) /\
  exists password g',
    generate_password 8 true false true false 42%N = (Returned password, g') /\
    len password = 8 /\
    Forall (in_selected_classes true false true false) password.
Proof.
  split; [split; [reflexivity | lia] |].
  apply (generate_password_length_and_alphabet 8 true false true false 42%N);
    [reflexivity | lia].
Defined.

(** C2 (as the code has it). [generate_password] raises exactly when all
    four class flags are false, whatever the length: the exception is a
    [ValueError] carrying the message
    "At least one character type must be selected!", raised before the
    random source is touched, so no password is produced.  With any flag
    true it returns a password and raises nothing. *)
Theorem generate_password_raises_iff_no_class
    {G : Type} `{RandomSource G}
    (length : Z) (use_uppercase use_lowercase use_digits use_symbols : bool) (g : G) :
  if use_uppercase || use_lowercase || use_digits || use_symbols
  then exists password g',
         generate_password length use_uppercase use_lowercase use_digits use_symbols g
           = (Returned password, g')
  else generate_password length use_uppercase use_lowercase use_digits use_symbols g
         = (Raised (ValueError (lit "At least one character type must be selected!")), g).
Proof.
  destruct (use_uppercase || use_lowercase || use_digits || use_symbols) eqn:Hsel.
  - destruct (generate_password_valid length _ _ _ _ g Hsel) as (pw & g' & E & _).
    exists pw, g'. exact E.
  - apply orb_false_elim in Hsel as [Hsel ->].
    apply orb_false_elim in Hsel as [Hsel ->].
    apply orb_false_elim in Hsel as [-> ->].
    apply generate_password_invalid.
Qed.

(** C2, refuted as stated: the message of the exception is not
    "at least one character class must be selected". *)
Lemma generate_password_message_differs :
  fst (generate_password 12 false false false false 42%N)
  <> Raised (ValueError (lit "at least one character class must be selected")).
Proof. vm_compute. discriminate. Qed.

(** C3. For every string, [check_password_strength] returns a report
    whose four flags say whether the string contains a lowercase letter,
    an uppercase letter, a digit, and a symbol of the fixed set; whose
    score is the number of flags that are true, between 0 and 4; and
    whose length is the length of the string. *)
Theorem check_password_strength_report
    {G : Type} `{UnicodeData} (password : str) (g : G) :
  exists r,
    check_password_strength password g = (Returned r, g) /\
    (has_lowercase r = true <-> exists c, In c password /\ islower c = true) /\
    (has_uppercase r = true <-> exists c, In c password /\ isupper c = true) /\
    (has_digits r = true <-> exists c, In c password /\ isdigit c = true) /\
    (has_symbols r = true <->
       exists c, In c password /\ In c (lit "!@#$%^&*()_+-=[]{}|;:,.<>?")) /\
    score r = Z.b2z (has_lowercase r) + Z.b2z (has_uppercase r)
              + Z.b2z (has_digits r) + Z.b2z (has_symbols r) /\
    0 <= score r <= 4 /\
    length r = len password.
Proof.
  eexists. split; [reflexivity|]. cbn [has_lowercase has_uppercase has_digits
    has_symbols score length].
  rewrite sum_flags, !any_exists.
  repeat split; try tauto.
  - intros (c & Hc & Hin). exists c. split; [exact Hc | apply str_in_In, Hin].
  - intros (c & Hc & Hin). exists c. split; [exact Hc | apply str_in_In, Hin].
  - pose proof (b2z_range (any islower password)).
    pose proof (b2z_range (any isupper password)).
    pose proof (b2z_range (any isdigit password)).
    pose proof (b2z_range
      (any (fun c => str_in c (lit "!@#$%^&*()_+-=[]{}|;:,.<>?")) password)).
    lia.
  - pose proof (b2z_range (any islower password)).
    pose proof (b2z_range (any isupper password)).
    pose proof (b2z_range (any isdigit password)).
    pose proof (b2z_range
      (any (fun c => str_in c (lit "!@#$%^&*()_+-=[]{}|;:,.<>?")) password)).
    lia.
Qed.

(** C4. The pool is a function of the four flags: the alphabets of the
    selected classes concatenated in the order lowercase, uppercase,
    digits, symbols, an unselected class contributing nothing.  For
    lowercase and digits only it is
    "abcdefghijklmnopqrstuvwxyz0123456789". *)
Theorem character_pool_order (use_uppercase use_lowercase use_digits use_symbols : bool) :
  character_pool use_uppercase use_lowercase use_digits use_symbols =
    (if use_lowercase then pystring.ascii_lowercase else lit "") ++
    (if use_uppercase then pystring.ascii_uppercase else lit "") ++
    (if use_digits then pystring.digits else lit "") ++
    (if use_symbols then lit "!@#$%^&*()_+-=[]{}|;:,.<>?" else lit "") /\
  character_pool false true true false = lit "abcdefghijklmnopqrstuvwxyz0123456789".
Proof.
  split; [apply character_pool_concat | reflexivity].
Qed.

(** C5 (as the code has it). The symbols alphabet of the pool and the
    symbol set of the scorer are the same literal, in the same order, and
    that literal has 26 characters. *)
Theorem symbols_alphabet :
  character_pool false false false true = lit "!@#$%^&*()_+-=[]{}|;:,.<>?" /\
  (forall (G : Type) (U : UnicodeData) (password : str) (g : G),
   exists r,
     check_password_strength password g = (Returned r, g) /\
     has_symbols r
       = any (fun c => str_in c (character_pool false false false true)) password) /\
  List.length (lit "!@#$%^&*()_+-=[]{}|;:,.<>?") = 26%nat.
Proof.
  split; [reflexivity | split; [| reflexivity]].
  intros G U password g. eexists. split; reflexivity.
Qed.

(** C5, refuted as stated: the symbols alphabet does not have 27
    characters. *)
Lemma symbols_alphabet_not_27 :
  List.length (character_pool false false false true) <> 27%nat.
Proof. vm_compute. discriminate. Qed.

(** C6 (as the code has it). With a class selected and [count >= 0],
    [generate_multiple_passwords] returns exactly [count] passwords in
    order, each of the requested length (none for a negative length) and
    each drawn from the selected alphabets.  With [count <= 0] it returns
    the empty list, whatever the class flags.  With no class selected and
    [count >= 1] it raises the exception [generate_password] raises,
    unchanged. *)
Theorem generate_multiple_passwords_spec
    {G : Type} `{RandomSource G} (count length : Z) (kw : kwargs) (g : G) :
  (kw_any kw = true -> 0 <= count ->
   exists passwords g',
     generate_multiple_passwords count length kw g = (Returned passwords, g') /\
     len passwords = count /\
     Forall (fun pw => len pw = Z.max 0 length /\ Forall (kw_selected kw) pw) passwords) /\
  (count <= 0 ->
   generate_multiple_passwords count length kw g = (Returned [], g)) /\
  (kw_any kw = false -> 1 <= count ->
   exists e,
     call_generate_password (Some length) kw g = (Raised e, g) /\
     generate_multiple_passwords count length kw g = (Raised e, g)).
Proof.
  split; [|split].
  - intros Hsel Hcount.
    destruct (generate_multiple_passwords_valid count length kw g Hsel)
      as (pws & g' & E & Hn & Hall).
    exists pws, g'. split; [exact E | split].
    + unfold len. lia.
    + eapply Forall_impl; [|exact Hall].
      intros pw [Hl Hin]. split; [unfold len; lia | exact Hin].
  - apply generate_multiple_passwords_empty.
  - intros Hsel Hcount.
    exists (ValueError (lit "At least one character type must be selected!")).
    split; [|apply generate_multiple_passwords_invalid; assumption].
    unfold kw_any in Hsel.
    apply orb_false_elim in Hsel as [Hsel Hs].
    apply orb_false_elim in Hsel as [Hsel Hd].
    apply orb_false_elim in Hsel as [Hu Hl].
    unfold call_generate_password. rewrite Hu, Hl, Hd, Hs. reflexivity.
Qed.

Lemma generate_multiple_passwords_spec_witness :
  exists passwords g',
    generate_multiple_passwords 5 12 no_kwargs 42%N = (Returned passwords, g') /\
    len passwords = 5 /\
    Forall (fun pw => len pw = Z.max 0 12 /\ Forall (kw_selected no_kwargs) pw) passwords.
Proof.
  apply (proj1 (generate_multiple_passwords_spec 5 12 no_kwargs 42%N));
    [reflexivity | lia].
Defined.

(** C6, refuted as stated: with no class selected and a count of 0 the
    single-password call raises, but the batch call returns the empty
    list. *)
Lemma generate_multiple_passwords_zero_count_no_error :
  fst (generate_password 12 false false false false 42%N)
    = Raised (ValueError (lit "At least one character type must be selected!")) /\
  fst (generate_multiple_passwords 0 12 (flags false false false false) 42%N)
    = Returned [].
Proof. split; reflexivity. Qed.

(** C7. The scorer on the three sample strings: "abc123" scores 2 with
    lowercase and digit present, label "Fair", length 6; "Ab1!" scores 4,
    label "Strong", length 4; the empty string scores 0, label
    "Very Weak", length 0.  On every string the label is the one the table
    0:Very Weak, 1:Weak, 2:Fair, 3:Good, 4:Strong gives for the score. *)
Theorem check_password_strength_samples {G : Type} `{UnicodeData} (g : G) :
  check_password_strength (lit "abc123") g =
    (Returned {| score := 2; strength := lit "Fair"; length := 6;
                 has_lowercase := true; has_uppercase := false;
                 has_digits := true; has_symbols := false |}, g) /\
  (exists r, check_password_strength (lit "Ab1!") g = (Returned r, g) /\
             score r = 4 /\ strength r = lit "Strong" /\ length r = 4) /\
  (exists r, check_password_strength (lit "") g = (Returned r, g) /\
             score r = 0 /\ strength r = lit "Very Weak" /\ length r = 0) /\
  (forall password, exists r,
     check_password_strength password g = (Returned r, g) /\
     strength r =
       dict_get [(0, lit "Very Weak"); (1, lit "Weak"); (2, lit "Fair");
                 (3, lit "Good"); (4, lit "Strong")] (score r) (lit "") /\
     0 <= score r <= 4).
Proof.
  split; [|split; [|split]].
  - unfold check_password_strength.
    destruct (lit_ascii "abc123") as (El & Eu & Ed);
      [apply all_ascii_Forall; reflexivity|].
    rewrite El, Eu, Ed. reflexivity.
  - eexists. split; [reflexivity|].
    cbn [score strength length].
    destruct (lit_ascii "Ab1!") as (El & Eu & Ed);
      [apply all_ascii_Forall; reflexivity|].
    rewrite El, Eu, Ed. repeat split.
  - eexists. split; [reflexivity|]. repeat split.
  - intros password. eexists. split; [reflexivity|].
    cbn [score strength].
    destruct (any islower password), (any isupper password), (any isdigit password),
      (any (fun c => str_in c (lit "!@#$%^&*()_+-=[]{}|;:,.<>?")) password);
      (split; [reflexivity | cbn; lia]).
Qed.

(** C8. [check_password_strength] is a pure function of its argument:
    there is one report per string, returned in every state of the
    process, and the call leaves that state as it found it.  So two calls
    on the same string return the same report, whatever runs in
    between. *)
Theorem check_password_strength_pure `{UnicodeData} (password : str) :
  exists r,
    (forall (G : Type) (g : G),
       check_password_strength password g = (Returned r, g)) /\
    (forall (G A : Type) (other : M G A) (g g' : G) (a : A),
       other g = (Returned a, g') ->
       (r1 <- check_password_strength password ;;
        _ <- other ;;
        r2 <- check_password_strength password ;;
        ret (r1, r2)) g = (Returned (r, r), g')).
Proof.
  eexists. split.
  - intros G g. reflexivity.
  - intros G A other g g' a E.
    unfold bind, check_password_strength, ret. rewrite E. reflexivity.
Qed.

(** C9. With at least one class flag true and a length [<= 0], negative
    lengths included, [generate_password] raises nothing and returns the
    empty string, without drawing from the random source. *)
Theorem generate_password_nonpositive_length
    {G : Type} `{RandomSource G}
    (length : Z) (use_uppercase use_lowercase use_digits use_symbols : bool) (g : G) :
  use_uppercase || use_lowercase || use_digits || use_symbols = true ->
  length <= 0 ->
  generate_password length use_uppercase use_lowercase use_digits use_symbols g
    = (Returned (lit ""), g).
Proof.
  intros Hsel Hlen. unfold generate_password.
  rewrite character_pool_truthy, Hsel, (range_nonpos length Hlen). reflexivity.
Qed.

Lemma generate_password_nonpositive_length_witness :
  (false || true || false || false = true /\ -3 <= 0) /\
  generate_password (-3) false true false false 42%N = (Returned (lit ""), 42%N).
Proof.
  split; [split; [reflexivity | lia] |].
  apply (generate_password_nonpositive_length (-3) false true false false 42%N);
    [reflexivity | lia].
Defined.

(** C10. A call of [generate_password] that passes nothing runs it with
    length 12 and the four classes enabled; a call of
    [generate_multiple_passwords] that passes nothing runs it with count
    5 and length 12, and each password is generated with the four classes
    enabled. *)
Theorem default_arguments {G : Type} `{RandomSource G} :
  call_generate_password None no_kwargs = generate_password 12 true true true true /\
  call_generate_multiple_passwords None None no_kwargs
    = generate_multiple_passwords 5 12 no_kwargs /\
  (forall count length : Z,
     generate_multiple_passwords count length no_kwargs
       = generate_multiple_passwords count length (flags true true true true)) /\
  (forall length : Z,
     call_generate_password (Some length) no_kwargs
       = generate_password length true true true true).
Proof. repeat split. Qed.

(** ** Further properties of the generator and the scorer *)

(** *** Loops as generator expressions *)

Lemma mapM_app {G A B} (f : A -> M G B) (xs ys : list A) (g : G) :
  mapM f (xs ++ ys) g = (a <- mapM f xs ;; b <- mapM f ys ;; ret (a ++ b)) g.
Proof.
  revert g. induction xs as [|x xs IH]; intros g.
  - cbn [app mapM]. unfold bind, ret.
    destruct (mapM f ys g) as [[b|e] g1]; reflexivity.
  - cbn [app mapM]. unfold bind, ret in *.
    destruct (f x g) as [[y|e] g1]; [|reflexivity].
    rewrite IH.
    destruct (mapM f xs g1) as [[a|e] g2]; [|reflexivity].
    destruct (mapM f ys g2) as [[b|e] g3]; reflexivity.
Qed.

Lemma mapM_const_length {G A A' B} (m : M G B) (xs : list A) (ys : list A') (g : G) :
  List.length xs = List.length ys ->
  mapM (fun _ => m) xs g = mapM (fun _ => m) ys g.
Proof.
  revert ys g. induction xs as [|x xs IH]; intros [|y ys] g Hlen; try discriminate.
  - reflexivity.
  - cbn [mapM]. unfold bind.
    destruct (m g) as [[b|e] g1]; [|reflexivity].
    rewrite (IH ys g1) by (cbn in Hlen; lia). reflexivity.
Qed.

Lemma for_each_append {G A B} (m : M G B) (xs : list A) (acc : list B) (g : G) :
  for_each xs (fun _ acc => p <- m ;; ret (acc ++ [p])) acc g
  = (ps <- mapM (fun _ => m) xs ;; ret (acc ++ ps)) g.
Proof.
  revert acc g. induction xs as [|x xs IH]; intros acc g.
  - cbn [for_each mapM]. unfold bind, ret. rewrite app_nil_r. reflexivity.
  - cbn [for_each mapM]. unfold bind, ret in *.
    destruct (m g) as [[p|e] g1]; [|reflexivity].
    rewrite IH.
    destruct (mapM (fun _ => m) xs g1) as [[ps|e] g2]; [|reflexivity].
    rewrite <- app_assoc. reflexivity.
Qed.

Lemma range_add_length (a b : Z) :
  0 <= a -> 0 <= b ->
  List.length (range (a + b)) = List.length (range a ++ range b).
Proof.
  intros Ha Hb. rewrite length_app, !range_length. lia.
Qed.

Lemma nodup_fixed (l : list N) : nodup N.eq_dec l = l -> NoDup l.
Proof. intros E. rewrite <- E. apply NoDup_nodup. Qed.

Section Composition.
Context {G : Type} `{RandomSource G}.

Lemma generate_multiple_passwords_mapM (count length : Z) (kw : kwargs) (g : G) :
  generate_multiple_passwords count length kw g
  = mapM (fun _ => call_generate_password (Some length) kw) (range count) g.
Proof.
  pose proof (for_each_append (call_generate_password (Some length) kw)
                (range count) [] g) as E.
  unfold generate_multiple_passwords. unfold bind at 1. rewrite E.
  unfold bind, ret.
  destruct (mapM (fun _ => call_generate_password (Some length) kw) (range count) g)
    as [[ps|e] g']; reflexivity.
Qed.

End Composition.

(** X1. Whatever the flags, the pool holds no character twice, so an
    index drawn uniformly picks every pool character with the same
    chance; its size is 26 for each of lowercase, uppercase and symbols
    and 10 for digits, 88 at most. *)
Theorem character_pool_distinct (use_uppercase use_lowercase use_digits use_symbols : bool) :
  NoDup (character_pool use_uppercase use_lowercase use_digits use_symbols) /\
  len (character_pool use_uppercase use_lowercase use_digits use_symbols)
  = 26 * Z.b2z use_lowercase + 26 * Z.b2z use_uppercase
    + 10 * Z.b2z use_digits + 26 * Z.b2z use_symbols.
Proof.
  destruct use_uppercase, use_lowercase, use_digits, use_symbols;
    (split; [apply nodup_fixed; vm_compute; reflexivity | reflexivity]).
Qed.

(** X2. A password of length [a + b] is a password of length [a]
    followed by one of length [b] generated next from the same random
    source; with no class selected both sides raise the same error. *)
Theorem generate_password_split
    {G : Type} `{RandomSource G}
    (a b : Z) (use_uppercase use_lowercase use_digits use_symbols : bool) (g : G) :
  0 <= a -> 0 <= b ->
  generate_password (a + b) use_uppercase use_lowercase use_digits use_symbols g
  = (p1 <- generate_password a use_uppercase use_lowercase use_digits use_symbols ;;
     p2 <- generate_password b use_uppercase use_lowercase use_digits use_symbols ;;
     ret (p1 ++ p2)) g.
Proof.
  intros Ha Hb. unfold generate_password.
  destruct (negb (truthy (character_pool use_uppercase use_lowercase use_digits use_symbols)));
    [reflexivity|].
  unfold bind at 1.
  rewrite (mapM_const_length _ (range (a + b)) (range a ++ range b) g
             (range_add_length a b Ha Hb)).
  rewrite mapM_app. unfold bind, ret.
  set (draw := fun _ : Z =>
    random.choice (character_pool use_uppercase use_lowercase use_digits use_symbols)).
  destruct (mapM draw (range a) g) as [[d1|e] g1]; [|reflexivity].
  destruct (mapM draw (range b) g1) as [[d2|e] g2]; [|reflexivity].
  rewrite !join_chars. reflexivity.
Qed.

Lemma generate_password_split_witness :
  (0 <= 3 /\ 0 <= 5) /\
  generate_password (3 + 5) true true true true 42%N
  = (p1 <- generate_password 3 true true true true ;;
     p2 <- generate_password 5 true true true true ;;
     ret (p1 ++ p2)) 42%N.
Proof.
  split; [lia|].
  apply (generate_password_split 3 5 true true true true 42%N); lia.
Defined.

(** X3. A batch of [a + b] passwords is a batch of [a] followed by a
    batch of [b] generated next from the same random source, errors
    included. *)
Theorem generate_multiple_passwords_split
    {G : Type} `{RandomSource G} (a b length : Z) (kw : kwargs) (g : G) :
  0 <= a -> 0 <= b ->
  generate_multiple_passwords (a + b) length kw g
  = (ps1 <- generate_multiple_passwords a length kw ;;
     ps2 <- generate_multiple_passwords b length kw ;;
     ret (ps1 ++ ps2)) g.
Proof.
  intros Ha Hb. rewrite generate_multiple_passwords_mapM.
  rewrite (mapM_const_length _ (range (a + b)) (range a ++ range b) g
             (range_add_length a b Ha Hb)).
  rewrite mapM_app. unfold bind.
  rewrite generate_multiple_passwords_mapM.
  destruct (mapM (fun _ => call_generate_password (Some length) kw) (range a) g)
    as [[ps1|e] g1]; [|reflexivity].
  rewrite generate_multiple_passwords_mapM. reflexivity.
Qed.

Lemma generate_multiple_passwords_split_witness :
  (0 <= 2 /\ 0 <= 1) /\
  generate_multiple_passwords (2 + 1) 6 no_kwargs 7%N
  = (ps1 <- generate_multiple_passwords 2 6 no_kwargs ;;
     ps2 <- generate_multiple_passwords 1 6 no_kwargs ;;
     ret (ps1 ++ ps2)) 7%N.
Proof.
  split; [lia|].
  apply (generate_multiple_passwords_split 2 1 6 no_kwargs 7%N); lia.
Defined.

(** X4. A batch of one is the password the single call gives from the
    same state of the random source, as a one-element list; it raises
    what the single call raises. *)
Theorem generate_multiple_passwords_one
    {G : Type} `{RandomSource G} (length : Z) (kw : kwargs) (g : G) :
  generate_multiple_passwords 1 length kw g
  = (p <- call_generate_password (Some length) kw ;; ret [p]) g.
Proof.
  rewrite generate_multiple_passwords_mapM.
  change (range 1) with [0]. cbn [mapM]. unfold bind, ret.
  destruct (call_generate_password (Some length) kw g) as [[p|e] g1]; reflexivity.
Qed.

(** *** The scorer on its own *)

Lemma any_app {A} (f : A -> bool) (s t : list A) : any f (s ++ t) = any f s || any f t.
Proof. unfold any. apply existsb_app. Qed.

Lemma any_same_elements {A} (f : A -> bool) (s t : list A) :
  (forall c, In c s <-> In c t) -> any f s = any f t.
Proof.
  intros Hst. apply eq_true_iff_eq. rewrite !any_exists.
  split; intros (c & Hc & Hf); exists c; (split; [apply Hst, Hc | exact Hf]).
Qed.

Lemma b2z_orb (a b : bool) :
  Z.max (Z.b2z a) (Z.b2z b) <= Z.b2z (a || b) <= Z.b2z a + Z.b2z b.
Proof. destruct a, b; cbn; lia. Qed.

Lemma small_score (k : Z) : 0 <= k <= 4 -> k = 0 \/ k = 1 \/ k = 2 \/ k = 3 \/ k = 4.
Proof. lia. Qed.

Lemma label_injective (k1 k2 : Z) :
  0 <= k1 <= 4 -> 0 <= k2 <= 4 ->
  dict_get strength_levels k1 (lit "Very Weak") = dict_get strength_levels k2 (lit "Very Weak") ->
  k1 = k2.
Proof.
  intros H1 H2.
  destruct (small_score k1 H1) as [->|[->|[->|[->| ->]]]];
    destruct (small_score k2 H2) as [->|[->|[->|[->| ->]]]];
    vm_compute; intros E; first [reflexivity | discriminate E].
Qed.

Lemma score_range (a b c d : bool) : 0 <= sum [a; b; c; d] <= 4.
Proof. rewrite sum_flags. destruct a, b, c, d; cbn; lia. Qed.

(** X5. Appending to a string can only add classes: each flag of
    [s ++ t] is the disjunction of the flags of [s] and [t], so its score
    is at least the larger of the two scores and at most their sum. *)
Theorem check_password_strength_append {G : Type} `{UnicodeData} (s t : str) (g : G) :
  exists rs rt rst,
    check_password_strength s g = (Returned rs, g) /\
    check_password_strength t g = (Returned rt, g) /\
    check_password_strength (s ++ t) g = (Returned rst, g) /\
    has_lowercase rst = has_lowercase rs || has_lowercase rt /\
    has_uppercase rst = has_uppercase rs || has_uppercase rt /\
    has_digits rst = has_digits rs || has_digits rt /\
    has_symbols rst = has_symbols rs || has_symbols rt /\
    Z.max (score rs) (score rt) <= score rst <= score rs + score rt /\
    length rst = length rs + length rt.
Proof.
  do 3 eexists. do 3 (split; [reflexivity|]).
  cbn [has_lowercase has_uppercase has_digits has_symbols score length].
  rewrite !sum_flags, !any_app. repeat split.
  - pose proof (b2z_orb (any islower s) (any islower t)).
    pose proof (b2z_orb (any isupper s) (any isupper t)).
    pose proof (b2z_orb (any isdigit s) (any isdigit t)).
    pose proof (b2z_orb
      (any (fun c => str_in c (lit "!@#$%^&*()_+-=[]{}|;:,.<>?")) s)
      (any (fun c => str_in c (lit "!@#$%^&*()_+-=[]{}|;:,.<>?")) t)).
    lia.
  - pose proof (b2z_orb (any islower s) (any islower t)).
    pose proof (b2z_orb (any isupper s) (any isupper t)).
    pose proof (b2z_orb (any isdigit s) (any isdigit t)).
    pose proof (b2z_orb
      (any (fun c => str_in c (lit "!@#$%^&*()_+-=[]{}|;:,.<>?")) s)
      (any (fun c => str_in c (lit "!@#$%^&*()_+-=[]{}|;:,.<>?")) t)).
    lia.
  - unfold len. rewrite length_app. lia.
Qed.

(** X6. The score looks at which characters occur, not at how often or
    in what order: two strings with the same set of characters get the
    same flags, the same score and the same label. *)
Theorem check_password_strength_same_characters
    {G : Type} `{UnicodeData} (s t : str) (g : G) :
  (forall c, In c s <-> In c t) ->
  exists rs rt,
    check_password_strength s g = (Returned rs, g) /\
    check_password_strength t g = (Returned rt, g) /\
    has_lowercase rs = has_lowercase rt /\
    has_uppercase rs = has_uppercase rt /\
    has_digits rs = has_digits rt /\
    has_symbols rs = has_symbols rt /\
    score rs = score rt /\
    strength rs = strength rt.
Proof.
  intros Hst. do 2 eexists. do 2 (split; [reflexivity|]).
  cbn [has_lowercase has_uppercase has_digits has_symbols score strength].
  rewrite (any_same_elements islower s t Hst), (any_same_elements isupper s t Hst),
    (any_same_elements isdigit s t Hst),
    (any_same_elements (fun c => str_in c (lit "!@#$%^&*()_+-=[]{}|;:,.<>?")) s t Hst).
  repeat split.
Qed.

Lemma check_password_strength_same_characters_witness :
  exists rs rt,
    check_password_strength [97; 49; 97; 97; 49]%N 0%N = (Returned rs, 0%N) /\
    check_password_strength [49; 97]%N 0%N = (Returned rt, 0%N) /\
    has_lowercase rs = has_lowercase rt /\
    has_uppercase rs = has_uppercase rt /\
    has_digits rs = has_digits rt /\
    has_symbols rs = has_symbols rt /\
    score rs = score rt /\
    strength rs = strength rt.
Proof.
  apply (check_password_strength_same_characters [97; 49; 97; 97; 49]%N [49; 97]%N 0%N).
  intros c. cbn [In]. tauto.
Defined.

(** X7. The label tells the score: two reports carry the same label
    exactly when they carry the same score.  In particular "Strong"
    means all four classes are present and "Very Weak" means none is. *)
Theorem strength_label_determines_score
    {G : Type} `{UnicodeData} (s t : str) (g : G) :
  exists rs rt,
    check_password_strength s g = (Returned rs, g) /\
    check_password_strength t g = (Returned rt, g) /\
    (strength rs = strength rt <-> score rs = score rt) /\
    (strength rs = lit "Strong" <->
       has_lowercase rs = true /\ has_uppercase rs = true /\
       has_digits rs = true /\ has_symbols rs = true) /\
    (strength rs = lit "Very Weak" <->
       has_lowercase rs = false /\ has_uppercase rs = false /\
       has_digits rs = false /\ has_symbols rs = false).
Proof.
  do 2 eexists. do 2 (split; [reflexivity|]).
  cbn [has_lowercase has_uppercase has_digits has_symbols score strength].
  split; [|split].
  - split.
    + apply label_injective; apply score_range.
    + intros ->. reflexivity.
  - destruct (any islower s), (any isupper s), (any isdigit s),
      (any (fun c => str_in c (lit "!@#$%^&*()_+-=[]{}|;:,.<>?")) s);
      vm_compute; split; intros E; try discriminate E; try reflexivity;
      try (repeat split; reflexivity);
      destruct E as (E1 & E2 & E3 & E4); discriminate.
  - destruct (any islower s), (any isupper s), (any isdigit s),
      (any (fun c => str_in c (lit "!@#$%^&*()_+-=[]{}|;:,.<>?")) s);
      vm_compute; split; intros E; try discriminate E; try reflexivity;
      try (repeat split; reflexivity);
      destruct E as (E1 & E2 & E3 & E4); discriminate.
Qed.

(** *** ASCII strings: the scorer's classes are the generator's alphabets *)

Lemma class_is_spec (l u d s : bool) (c : char) :
  class_is l u d s c = true -> has_class l u d s c.
Proof.
  unfold class_is, has_class. intros E.
  apply andb_prop in E as [E Es]. apply andb_prop in E as [E Ed].
  apply andb_prop in E as [E Eu]. apply andb_prop in E as [Hc El].
  apply N.ltb_lt in Hc. apply eqb_prop in El, Eu, Ed, Es. auto.
Qed.

Lemma alphabet_class (l u d s : bool) (alphabet : str) (c : char) :
  forallb (class_is l u d s) alphabet = true -> In c alphabet -> has_class l u d s c.
Proof.
  intros Hall Hc. rewrite forallb_forall in Hall. apply class_is_spec, Hall, Hc.
Qed.

Lemma forall_below (n : nat) (f : N -> bool) :
  forallb f (below n) = true -> forall c, (c < N.of_nat n)%N -> f c = true.
Proof.
  intros Hall c Hc. rewrite forallb_forall in Hall. apply Hall, below_In, Hc.
Qed.

Lemma ascii_one_class (c : char) :
  (c < 128)%N ->
  Z.b2z (str_in c pystring.ascii_lowercase) + Z.b2z (str_in c pystring.ascii_uppercase)
  + Z.b2z (str_in c pystring.digits)
  + Z.b2z (str_in c (lit "!@#$%^&*()_+-=[]{}|;:,.<>?")) <= 1.
Proof.
  intros Hc.
  assert (E : one_class_at_most c = true)
    by (apply (forall_below 128); [vm_compute; reflexivity | exact Hc]).
  unfold one_class_at_most in E. apply Z.leb_le in E. exact E.
Qed.

Lemma class_count_le_length (f1 f2 f3 f4 : char -> bool) (s : str) :
  Forall (fun c => Z.b2z (f1 c) + Z.b2z (f2 c) + Z.b2z (f3 c) + Z.b2z (f4 c) <= 1) s ->
  Z.b2z (any f1 s) + Z.b2z (any f2 s) + Z.b2z (any f3 s) + Z.b2z (any f4 s) <= len s.
Proof.
  intros Hs. induction Hs as [|c s Hc _ IH]; [cbn; lia|].
  change (c :: s) with ([c] ++ s). rewrite !any_app.
  pose proof (b2z_orb (any f1 [c]) (any f1 s)).
  pose proof (b2z_orb (any f2 [c]) (any f2 s)).
  pose proof (b2z_orb (any f3 [c]) (any f3 s)).
  pose proof (b2z_orb (any f4 [c]) (any f4 s)).
  unfold any in *. cbn [existsb] in *. rewrite !orb_false_r in *.
  unfold len in *. rewrite length_app. cbn [List.length]. lia.
Qed.

Section AsciiScorer.
Context {G : Type} `{UnicodeData}.

Lemma ascii_flags (s : str) :
  Forall (fun c => (c < 128)%N) s ->
  any islower s = any (fun c => str_in c pystring.ascii_lowercase) s /\
  any isupper s = any (fun c => str_in c pystring.ascii_uppercase) s /\
  any isdigit s = any (fun c => str_in c pystring.digits) s.
Proof.
  intros Hs. repeat split.
  - apply (any_ext_on (fun c => (c < 128)%N)); [apply islower_ascii | exact Hs].
  - apply (any_ext_on (fun c => (c < 128)%N)); [apply isupper_ascii | exact Hs].
  - apply (any_ext_on (fun c => (c < 128)%N)); [apply isdigit_ascii | exact Hs].
Qed.

Lemma ascii_score_le_length (s : str) :
  Forall (fun c => (c < 128)%N) s ->
  sum [any islower s; any isupper s; any isdigit s;
       any (fun c => str_in c (lit "!@#$%^&*()_+-=[]{}|;:,.<>?")) s] <= len s.
Proof.
  intros Hs. destruct (ascii_flags s Hs) as (El & Eu & Ed).
  rewrite sum_flags, El, Eu, Ed. apply class_count_le_length.
  eapply Forall_impl; [|exact Hs]. intros c Hc. apply ascii_one_class, Hc.
Qed.

End AsciiScorer.

(** X8. On a string of ASCII characters the scorer's lowercase,
    uppercase and digit flags say exactly whether a character of the
    generator's alphabet of that class occurs, and, the four classes
    being disjoint there, the score never exceeds the length: a
    one-character password scores at most 1. *)
Theorem check_password_strength_ascii {G : Type} `{UnicodeData} (s : str) (g : G) :
  all_ascii s = true ->
  exists r,
    check_password_strength s g = (Returned r, g) /\
    has_lowercase r = any (fun c => str_in c pystring.ascii_lowercase) s /\
    has_uppercase r = any (fun c => str_in c pystring.ascii_uppercase) s /\
    has_digits r = any (fun c => str_in c pystring.digits) s /\
    score r <= len s.
Proof.
  intros Hs. apply all_ascii_Forall in Hs.
  eexists. split; [reflexivity|].
  cbn [has_lowercase has_uppercase has_digits score].
  destruct (ascii_flags s Hs) as (El & Eu & Ed).
  repeat split; try assumption.
  apply ascii_score_le_length, Hs.
Qed.

Lemma check_password_strength_ascii_witness :
  exists r,
    check_password_strength (lit "Zz9?") 0%N = (Returned r, 0%N) /\
    has_lowercase r = any (fun c => str_in c pystring.ascii_lowercase) (lit "Zz9?") /\
    has_uppercase r = any (fun c => str_in c pystring.ascii_uppercase) (lit "Zz9?") /\
    has_digits r = any (fun c => str_in c pystring.digits) (lit "Zz9?") /\
    score r <= len (lit "Zz9?").
Proof.
  apply (check_password_strength_ascii (lit "Zz9?") 0%N). reflexivity.
Defined.

(** *** Scoring what was generated *)

Lemma lowercase_class (c : char) :
  In c pystring.ascii_lowercase -> has_class true false false false c.
Proof. apply alphabet_class. vm_compute. reflexivity. Qed.

Lemma uppercase_class (c : char) :
  In c pystring.ascii_uppercase -> has_class false true false false c.
Proof. apply alphabet_class. vm_compute. reflexivity. Qed.

Lemma digits_class (c : char) :
  In c pystring.digits -> has_class false false true false c.
Proof. apply alphabet_class. vm_compute. reflexivity. Qed.

Lemma symbols_class (c : char) :
  In c (lit "!@#$%^&*()_+-=[]{}|;:,.<>?") -> has_class false false false true c.
Proof. apply alphabet_class. vm_compute. reflexivity. Qed.

(** What the selected classes say of a character of the pool: it is
    ASCII and its one class is selected. *)
Lemma selected_class (uu ul ud us : bool) (c : char) :
  in_selected_classes uu ul ud us c ->
  has_class true false false false c /\ ul = true \/
  has_class false true false false c /\ uu = true \/
  has_class false false true false c /\ ud = true \/
  has_class false false false true c /\ us = true.
Proof.
  intros [[Hf Hc]|[[Hf Hc]|[[Hf Hc]|[Hf Hc]]]].
  - left. split; [apply lowercase_class, Hc | exact Hf].
  - right; left. split; [apply uppercase_class, Hc | exact Hf].
  - right; right; left. split; [apply digits_class, Hc | exact Hf].
  - right; right; right. split; [apply symbols_class, Hc | exact Hf].
Qed.

Lemma b2z_le_implies (a b : bool) : (a = true -> b = true) -> Z.b2z a <= Z.b2z b.
Proof.
  destruct a, b; cbn; intros Hab; try lia.
  all: specialize (Hab eq_refl); discriminate.
Qed.

Section Generated.
Context {G : Type} `{RandomSource G} `{UnicodeData}.

Lemma selected_flags (uu ul ud us : bool) (pw : str) :
  Forall (in_selected_classes uu ul ud us) pw ->
  (any islower pw = true -> ul = true) /\
  (any isupper pw = true -> uu = true) /\
  (any isdigit pw = true -> ud = true) /\
  (any (fun c => str_in c (lit "!@#$%^&*()_+-=[]{}|;:,.<>?")) pw = true -> us = true).
Proof.
  intros Hpw. rewrite Forall_forall in Hpw.
  repeat split; intros Hany; apply any_exists in Hany as (c & Hc & Hf);
    destruct (selected_class _ _ _ _ c (Hpw c Hc))
      as [[K F]|[[K F]|[[K F]|[K F]]]];
    destruct K as (Hascii & El & Eu & Ed & Es);
    try rewrite (islower_ascii c Hascii) in Hf;
    try rewrite (isupper_ascii c Hascii) in Hf;
    try rewrite (isdigit_ascii c Hascii) in Hf;
    cbv beta in Hf; congruence.
Qed.

Lemma selected_nonempty_scores (uu ul ud us : bool) (c : char) (pw : str) :
  in_selected_classes uu ul ud us c ->
  1 <= sum [any islower (c :: pw); any isupper (c :: pw); any isdigit (c :: pw);
            any (fun c => str_in c (lit "!@#$%^&*()_+-=[]{}|;:,.<>?")) (c :: pw)].
Proof.
  intros Hc.
  assert (K : exists l u d s, has_class l u d s c /\
                              1 <= Z.b2z l + Z.b2z u + Z.b2z d + Z.b2z s).
  { destruct (selected_class _ _ _ _ c Hc) as [[K F]|[[K F]|[[K F]|[K F]]]];
      do 4 eexists; (split; [exact K | cbn; lia]). }
  destruct K as (l & u & d & s & (Hascii & El & Eu & Ed & Es) & Hone).
  rewrite sum_flags. unfold any. cbn [existsb].
  rewrite (islower_ascii c Hascii), (isupper_ascii c Hascii), (isdigit_ascii c Hascii).
  rewrite El, Eu, Ed, Es.
  pose proof (b2z_orb l (existsb islower pw)).
  pose proof (b2z_orb u (existsb isupper pw)).
  pose proof (b2z_orb d (existsb isdigit pw)).
  pose proof (b2z_orb s
    (existsb (fun c => str_in c (lit "!@#$%^&*()_+-=[]{}|;:,.<>?")) pw)).
  lia.
Qed.

End Generated.

(** X9. Generate, then score, as [main] does for a single password: the
    report's length is the requested length (0 for a negative one); a
    class is reported present only if it was selected, so the score is
    at most the number of selected classes, and at most the length; and
    a password of at least one character always scores at least 1, so it
    is never rated "Very Weak". *)
Theorem generated_password_strength
    {G : Type} `{RandomSource G} `{UnicodeData}
    (requested : Z) (use_uppercase use_lowercase use_digits use_symbols : bool) (g : G) :
  use_uppercase || use_lowercase || use_digits || use_symbols = true ->
  exists password g' r,
    generate_password requested use_uppercase use_lowercase use_digits use_symbols g
      = (Returned password, g') /\
    check_password_strength password g' = (Returned r, g') /\
    length r = Z.max 0 requested /\
    (has_lowercase r = true -> use_lowercase = true) /\
    (has_uppercase r = true -> use_uppercase = true) /\
    (has_digits r = true -> use_digits = true) /\
    (has_symbols r = true -> use_symbols = true) /\
    score r <= Z.b2z use_lowercase + Z.b2z use_uppercase
               + Z.b2z use_digits + Z.b2z use_symbols /\
    score r <= Z.max 0 requested /\
    (1 <= requested -> 1 <= score r /\ strength r <> lit "Very Weak").
Proof.
  intros Hsel.
  destruct (generate_password_valid requested _ _ _ _ g Hsel) as (pw & g' & E & Hlen & Hall).
  exists pw, g'. eexists. split; [exact E|]. split; [reflexivity|].
  cbn [has_lowercase has_uppercase has_digits has_symbols score strength length].
  destruct (selected_flags _ _ _ _ pw Hall) as (Fl & Fu & Fd & Fs).
  assert (Hascii : Forall (fun c => (c < 128)%N) pw).
  { eapply Forall_impl; [|exact Hall]. intros c Hc.
    destruct (selected_class _ _ _ _ c Hc) as [[K _]|[[K _]|[[K _]|[K _]]]];
      apply K. }
  split; [unfold len; lia|].
  do 4 (split; [assumption|]).
  split; [|split].
  - rewrite sum_flags.
    pose proof (b2z_le_implies _ _ Fl). pose proof (b2z_le_implies _ _ Fu).
    pose proof (b2z_le_implies _ _ Fd). pose proof (b2z_le_implies _ _ Fs). lia.
  - pose proof (ascii_score_le_length pw Hascii). unfold len in *. lia.
  - intros Hreq. destruct pw as [|c pw]; [cbn in Hlen; lia|].
    inversion Hall as [|c' pw' Hc Hpw]; subst.
    pose proof (selected_nonempty_scores _ _ _ _ c pw Hc) as Hscore.
    split; [exact Hscore|]. intros Elabel.
    pose proof (score_range (any islower (c :: pw)) (any isupper (c :: pw))
                  (any isdigit (c :: pw))
                  (any (fun c => str_in c (lit "!@#$%^&*()_+-=[]{}|;:,.<>?")) (c :: pw)))
      as Hrange.
    assert (E0 : 0 <= 0 <= 4) by lia.
    pose proof (label_injective _ 0 Hrange E0 Elabel). lia.
Qed.

Lemma generated_password_strength_witness :
  exists password g' r,
    generate_password 10 true false true false 42%N = (Returned password, g') /\
    check_password_strength password g' = (Returned r, g') /\
    length r = Z.max 0 10 /\
    (has_lowercase r = true -> false = true) /\
    (has_uppercase r = true -> true = true) /\
    (has_digits r = true -> true = true) /\
    (has_symbols r = true -> false = true) /\
    score r <= Z.b2z false + Z.b2z true + Z.b2z true + Z.b2z false /\
    score r <= Z.max 0 10 /\
    (1 <= 10 -> 1 <= score r /\ strength r <> lit "Very Weak").
Proof.
  apply (generated_password_strength 10 true false true false 42%N). reflexivity.
Defined.

Lemma mapM_first_index (c : char) (pool : str) (xs : list Z) :
  mapM (fun _ => @random.choice unit first_index (c :: pool)) xs tt
  = (Returned (repeat c (List.length xs)), tt).
Proof.
  induction xs as [|x xs IH]; [reflexivity|].
  cbn [mapM]. unfold bind at 1.
  change (@random.choice unit first_index (c :: pool) tt) with (Returned c, tt).
  unfold bind. rewrite IH. reflexivity.
Qed.

Lemma any_repeat {A} (f : A -> bool) (c : A) (n : nat) :
  (0 < n)%nat -> any f (repeat c n) = f c.
Proof.
  intros Hn. destruct n as [|n]; [lia|]. clear Hn.
  induction n as [|n IH]; [cbn; apply orb_false_r|].
  change (repeat c (S (S n))) with ([c] ++ repeat c (S n)).
  rewrite any_app, IH. cbn. rewrite orb_false_r. apply orb_diag.
Qed.

(** X10. No selected class is guaranteed to appear in the password:
    with a random source that always draws index 0, for every length of
    at least 1 and every choice of classes, all four included, the
    password repeats the first character of the pool, and it is rated
    "Weak" with score 1. *)
Theorem selected_classes_not_guaranteed
    `{UnicodeData}
    (requested : Z) (use_uppercase use_lowercase use_digits use_symbols : bool) :
  use_uppercase || use_lowercase || use_digits || use_symbols = true ->
  1 <= requested ->
  exists c r,
    @generate_password unit first_index
      requested use_uppercase use_lowercase use_digits use_symbols tt
      = (Returned (repeat c (Z.to_nat requested)), tt) /\
    nth_error (character_pool use_uppercase use_lowercase use_digits use_symbols) 0
      = Some c /\
    check_password_strength (repeat c (Z.to_nat requested)) tt = (Returned r, tt) /\
    score r = 1 /\ strength r = lit "Weak".
Proof.
  intros Hsel Hreq.
  assert (Hpool : exists c pool,
            character_pool use_uppercase use_lowercase use_digits use_symbols = c :: pool
            /\ In c [97; 65; 48; 33]%N).
  { destruct use_uppercase, use_lowercase, use_digits, use_symbols;
      try discriminate Hsel; eexists; eexists; (split; [reflexivity|]);
      cbn; tauto. }
  destruct Hpool as (c & pool & Epool & Hc).
  exists c. eexists. split; [|split; [|split; [reflexivity|]]].
  - unfold generate_password. rewrite character_pool_truthy, Hsel. cbn [negb].
    rewrite Epool. unfold bind. rewrite mapM_first_index, join_chars, range_length.
    reflexivity.
  - rewrite Epool. reflexivity.
  - cbn [score strength]. rewrite !any_repeat by lia.
    assert (Hascii : (c < 128)%N)
      by (cbn [In] in Hc; destruct Hc as [<-|[<-|[<-|[<-|[]]]]]; reflexivity).
    rewrite (islower_ascii c Hascii), (isupper_ascii c Hascii), (isdigit_ascii c Hascii).
    cbn [In] in Hc. destruct Hc as [<-|[<-|[<-|[<-|[]]]]]; split; reflexivity.
Qed.

Lemma selected_classes_not_guaranteed_witness :
  exists c r,
    @generate_password unit first_index 12 true true true true tt
      = (Returned (repeat c (Z.to_nat 12)), tt) /\
    nth_error (character_pool true true true true) 0 = Some c /\
    check_password_strength (repeat c (Z.to_nat 12)) tt = (Returned r, tt) /\
    score r = 1 /\ strength r = lit "Weak".
Proof.
  apply (selected_classes_not_guaranteed 12 true true true true); [reflexivity | lia].
Defined.

(** ** The interactive loop *)

(** *** What a computation may do to the input and which exceptions it
    may raise *)

Lemma obeys_ret {G A} (P : pyexc -> Prop) (a : A) : obeys P (@io_ret G A a).
Proof. intros w. cbn. auto. Qed.

Lemma obeys_raise {G A} (P : pyexc -> Prop) (e : pyexc) : P e -> obeys P (@io_raise G A e).
Proof. intros He w. cbn. auto. Qed.

Lemma obeys_bind {G A B} (P : pyexc -> Prop) (m : IO G A) (k : A -> IO G B) :
  obeys P m -> (forall a, obeys P (k a)) -> obeys P (io_bind m k).
Proof.
  intros Hm Hk w. unfold io_bind. specialize (Hm w).
  destruct (m w) as [[a|e] w1]; cbn [fst snd] in *.
  - specialize (Hk a w1). destruct Hk as [Hlen Hexc]. split; [lia | exact Hexc].
  - exact Hm.
Qed.

Lemma obeys_print {G} (P : pyexc -> Prop) (s : str) : obeys P (@print G s).
Proof. intros w. cbn. auto. Qed.

Lemma obeys_input {G} (P : pyexc -> Prop) (prompt : str) :
  P KeyboardInterrupt -> P EOFError -> obeys P (@input G prompt).
Proof.
  intros Hki Heof w. unfold input.
  destruct (w_stdin w) as [|[s|] rest]; cbn; auto.
Qed.

Lemma obeys_call {G A} (P : pyexc -> Prop) (m : M G A) :
  (forall g, match fst (m g) with Returned _ => True | Raised e => P (Exn e) end) ->
  obeys P (call m).
Proof.
  intros Hm w. unfold call. specialize (Hm (w_rng w)).
  destruct (m (w_rng w)) as [[a|e] g']; cbn in *; auto.
Qed.

Lemma obeys_io_for {G A} (P : pyexc -> Prop) (xs : list A) (body : A -> IO G unit) :
  (forall x, obeys P (body x)) -> obeys P (io_for xs body).
Proof.
  intros Hbody. induction xs as [|x xs IH]; cbn [io_for].
  - apply obeys_ret.
  - apply obeys_bind; [apply Hbody | intros _; exact IH].
Qed.

Section CoreRaises.
Context {G : Type} `{RandomSource G} `{UnicodeData}.

Lemma generate_password_raises (n : Z) (uu ul ud us : bool) (g : G) :
  match fst (generate_password n uu ul ud us g) with
  | Returned _ => True
  | Raised e => try_exception (Exn e)
  end.
Proof.
  destruct (uu || ul || ud || us) eqn:Hsel.
  - destruct (generate_password_valid n _ _ _ _ g Hsel) as (pw & g' & E & _).
    rewrite E. exact I.
  - apply orb_false_elim in Hsel as [Hsel ->].
    apply orb_false_elim in Hsel as [Hsel ->].
    apply orb_false_elim in Hsel as [-> ->].
    rewrite generate_password_invalid. cbn. right; right. eauto.
Qed.

Lemma mapM_raises {A B} (P : exn -> Prop) (m : M G B) (xs : list A) :
  (forall g, match fst (m g) with Returned _ => True | Raised e => P e end) ->
  forall g, match fst (mapM (fun _ => m) xs g) with
            | Returned _ => True
            | Raised e => P e
            end.
Proof.
  intros Hm. induction xs as [|x xs IH]; intros g; [exact I|].
  cbn [mapM]. unfold bind. specialize (Hm g).
  destruct (m g) as [[b|e] g1]; cbn [fst] in *; [|exact Hm].
  specialize (IH g1).
  destruct (mapM (fun _ => m) xs g1) as [[bs|e] g2]; cbn [fst] in *; [exact I | exact IH].
Qed.

Lemma generate_multiple_passwords_raises (count n : Z) (kw : kwargs) (g : G) :
  match fst (generate_multiple_passwords count n kw g) with
  | Returned _ => True
  | Raised e => try_exception (Exn e)
  end.
Proof.
  rewrite generate_multiple_passwords_mapM.
  apply (mapM_raises (fun e => try_exception (Exn e))).
  intros g0. apply generate_password_raises.
Qed.

End CoreRaises.

Section MainLoop.
Context {G : Type} `{RandomSource G} `{UnicodeData} `{Builtins}.

Lemma obeys_int_or (s : str) (d : Z) : obeys try_exception (@int_or G _ s d).
Proof.
  unfold int_or. destruct (truthy s); [|apply obeys_ret].
  destruct (int_of_str s) as [z|msg]; [apply obeys_ret|].
  apply obeys_raise. right; right. eauto.
Qed.

Lemma try_exception_input : try_exception KeyboardInterrupt /\ try_exception EOFError.
Proof. split; [left | right; left]; reflexivity. Qed.

Ltac obeys_step :=
  first
    [ apply obeys_bind; [|intros ?]
    | apply obeys_print
    | apply obeys_input; [left; reflexivity | right; left; reflexivity]
    | apply obeys_int_or
    | apply obeys_ret
    | apply obeys_call; intros ?; first
        [ apply generate_password_raises
        | apply generate_multiple_passwords_raises
        | exact I ] ].

Lemma obeys_generate (count n : Z) (uu ul ud us : bool) :
  obeys try_exception
    (if count =? 1 then
       password <~ call (generate_password n uu ul ud us) ;;
       _ <~ print (lit "Password: " ++ password) ;;
       report <~ call (check_password_strength password) ;;
       _ <~ print (lit "Strength: " ++ strength report
                   ++ lit " (" ++ str_of_int (score report) ++ lit "/4)") ;;
       print (lit "Length: " ++ str_of_int (length report) ++ lit " characters")
     else
       passwords <~ call (generate_multiple_passwords count n (flags uu ul ud us)) ;;
       io_for (enumerate passwords 1)
         (fun '(i, pwd) =>
            report <~ call (check_password_strength pwd) ;;
            print (format_d 2 i ++ lit ". " ++ pwd
                   ++ lit " (Strength: " ++ strength report ++ lit ")"))).
Proof.
  destruct (count =? 1).
  - repeat obeys_step.
  - obeys_step; [obeys_step|].
    apply obeys_io_for. intros [i pwd]. repeat obeys_step.
Qed.

Lemma try_body_obeys : obeys try_exception (@try_body G _ _ _).
Proof.
  unfold try_body. repeat obeys_step. apply obeys_generate.
Qed.

Lemma io_bind_print {A} (s : str) (k : unit -> IO G A) (w : world G) :
  io_bind (print s) k w
  = k tt {| w_rng := w_rng w; w_stdin := w_stdin w; w_stdout := w_stdout w ++ s ++ nl |}.
Proof. reflexivity. Qed.

(** The [try] raises an exception of the core only after the first
    answer was read. *)
Lemma try_body_consumes (w w1 : world G) (e : exn) :
  try_body w = (Err (Exn e), w1) ->
  (List.length (w_stdin w1) < List.length (w_stdin w))%nat.
Proof.
  unfold try_body. rewrite io_bind_print. cbv beta.
  unfold io_bind at 1. unfold input. cbn [w_stdin w_rng w_stdout].
  destruct (w_stdin w) as [|[s|] rest]; try discriminate.
  intros E.
  match type of E with
  | ?m ?w0 = _ =>
      assert (Hm : obeys try_exception m)
        by (repeat obeys_step; apply obeys_generate);
      destruct (Hm w0) as [Hlen _]; rewrite E in Hlen
  end.
  cbn [snd w_stdin List.length] in *. lia.
Qed.

Lemma ask_again_obeys : obeys escaping (@ask_again G _).
Proof.
  unfold ask_again. apply obeys_bind.
  - apply obeys_input; [left | right]; reflexivity.
  - intros answer. destruct (str_eqb (lower answer) (lit "n")).
    + apply obeys_bind; [apply obeys_print | intros _; apply obeys_ret].
    + apply obeys_ret.
Qed.

Lemma ask_again_continue (w w' : world G) :
  ask_again w = (Ok Continue, w') ->
  (List.length (w_stdin w') < List.length (w_stdin w))%nat.
Proof.
  unfold ask_again, io_bind, input.
  destruct (w_stdin w) as [|[s|] rest]; try discriminate.
  destruct (str_eqb (lower s) (lit "n")); cbn; intros E.
  - discriminate.
  - injection E as <-. cbn. lia.
Qed.

Lemma iteration_escaping (w : world G) :
  match fst (iteration w) with
  | Ok _ => True
  | Err e => escaping e
  end.
Proof.
  unfold iteration.
  destruct (try_body_obeys w) as [_ Hexc].
  destruct (try_body w) as [[[]|e] w1]; cbn [fst] in *.
  - apply ask_again_obeys.
  - destruct Hexc as [->|[->|[msg ->]]]; cbn; auto.
    right. reflexivity.
Qed.

Lemma iteration_continue (w w' : world G) :
  iteration w = (Ok Continue, w') ->
  (List.length (w_stdin w') < List.length (w_stdin w))%nat.
Proof.
  unfold iteration.
  destruct (try_body_obeys w) as [Hlen Hexc].
  destruct (try_body w) as [[[]|e] w1] eqn:Etry; cbn [fst snd] in *.
  - intros E. apply ask_again_continue in E. lia.
  - destruct Hexc as [->|[->|[msg ->]]].
    + cbn. discriminate.
    + discriminate.
    + apply try_body_consumes in Etry. cbn. intros E. injection E as <-. cbn. lia.
Qed.

Lemma while_true_terminates (passes : nat) (w : world G) :
  (List.length (w_stdin w) < passes)%nat ->
  exists r w', while_true passes w = Some (r, w').
Proof.
  revert w. induction passes as [|passes IH]; intros w Hlen; [lia|].
  cbn [while_true].
  destruct (iteration w) as [[[]|e] w1] eqn:E; eauto.
  apply IH. apply iteration_continue in E. lia.
Qed.

Lemma while_true_more_passes (passes extra : nat) (w : world G) (r : result unit) (w' : world G) :
  while_true passes w = Some (r, w') ->
  while_true (passes + extra) w = Some (r, w').
Proof.
  revert w. induction passes as [|passes IH]; intros w; [discriminate|].
  cbn [while_true Nat.add].
  destruct (iteration w) as [[[]|e] w1]; auto.
Qed.

Lemma while_true_escaping (passes : nat) (w : world G) (e : pyexc) (w' : world G) :
  while_true passes w = Some (Err e, w') -> escaping e.
Proof.
  revert w. induction passes as [|passes IH]; intros w; [discriminate|].
  cbn [while_true].
  pose proof (iteration_escaping w) as Hesc.
  destruct (iteration w) as [[[]|e1] w1]; cbn [fst] in Hesc.
  - apply IH.
  - discriminate.
  - intros E. injection E as -> _. exact Hesc.
Qed.

End MainLoop.

(** X11. On every finite input [main] comes to an end: one more pass
    than there are input events is enough, and a larger bound gives the
    same outcome. *)
Theorem main_terminates
    {G : Type} `{RandomSource G} `{UnicodeData} `{Builtins} (w : world G) :
  exists r w',
    forall extra : nat,
      main (S (List.length (w_stdin w)) + extra) w = Some (r, w').
Proof.
  unfold main. rewrite io_bind_print. cbv beta. unfold print.
  cbn [w_rng w_stdin w_stdout].
  set (w1 := {| w_rng := w_rng w; w_stdin := w_stdin w; w_stdout := _ |}).
  destruct (while_true_terminates (S (List.length (w_stdin w))) w1) as (r & w' & E);
    [cbn; lia|].
  exists r, w'. intros extra. apply while_true_more_passes, E.
Qed.

(** X12. The only exceptions that leave [main] are [EOFError] and
    [KeyboardInterrupt]: a [ValueError], from a bad number or from
    selecting no class, never does, and no [IndexError] arises. *)
Theorem main_escaping_exceptions
    {G : Type} `{RandomSource G} `{UnicodeData} `{Builtins}
    (passes : nat) (w w' : world G) (e : pyexc) :
  main passes w = Some (Err e, w') ->
  e = KeyboardInterrupt \/ e = EOFError.
Proof.
  unfold main. rewrite io_bind_print. cbv beta. unfold print.
  apply while_true_escaping.
Qed.

Lemma main_escaping_exceptions_witness :
  exists w',
    main 3 (start 42%N [Line (lit "8")]) = Some (Err EOFError, w') /\
    (EOFError = KeyboardInterrupt \/ EOFError = EOFError).
Proof.
  eexists. split; [reflexivity|].
  eapply (main_escaping_exceptions 3 (start 42%N [Line (lit "8")])). reflexivity.
Defined.

(** *** One pass, answer by answer *)

Section Passes.
Context {G : Type} `{RandomSource G} `{UnicodeData} `{Builtins}.

Lemma step_print {A} (s : str) (k : unit -> IO G A) (g : G) (i : list event) (o : str) :
  io_bind (print s) k {| w_rng := g; w_stdin := i; w_stdout := o |}
  = k tt {| w_rng := g; w_stdin := i; w_stdout := o ++ s ++ nl |}.
Proof. reflexivity. Qed.

Lemma step_input {A} (p : str) (k : str -> IO G A)
    (g : G) (s : str) (i : list event) (o : str) :
  io_bind (input p) k {| w_rng := g; w_stdin := Line s :: i; w_stdout := o |}
  = k s {| w_rng := g; w_stdin := i; w_stdout := o ++ p |}.
Proof. reflexivity. Qed.

Lemma step_interrupt {A} (p : str) (k : str -> IO G A) (g : G) (i : list event) (o : str) :
  io_bind (input p) k {| w_rng := g; w_stdin := CtrlC :: i; w_stdout := o |}
  = (Err KeyboardInterrupt, {| w_rng := g; w_stdin := i; w_stdout := o ++ p |}).
Proof. reflexivity. Qed.

Lemma step_int_or {A} (answer : str) (d z : Z) (k : Z -> IO G A) (w : world G) :
  reads_int answer d z -> io_bind (int_or answer d) k w = k z w.
Proof.
  unfold io_bind, int_or. intros [[-> ->]|[Hne E]]; [reflexivity|].
  destruct answer as [|c answer]; [congruence|]. cbn [truthy]. rewrite E. reflexivity.
Qed.

Lemma step_int_or_error {A} (answer msg : str) (d : Z) (k : Z -> IO G A) (w : world G) :
  answer <> [] -> int_of_str answer = inr msg ->
  io_bind (int_or answer d) k w = (Err (Exn (ValueError msg)), w).
Proof.
  unfold io_bind, int_or. intros Hne E.
  destruct answer as [|c answer]; [congruence|]. cbn [truthy]. rewrite E. reflexivity.
Qed.

Lemma step_call {A B} (m : M G A) (k : A -> IO G B)
    (g g' : G) (a : A) (i : list event) (o : str) :
  m g = (Returned a, g') ->
  io_bind (call m) k {| w_rng := g; w_stdin := i; w_stdout := o |}
  = k a {| w_rng := g'; w_stdin := i; w_stdout := o |}.
Proof. intros E. unfold io_bind, call. cbn [w_rng]. rewrite E. reflexivity. Qed.

Lemma step_call_raised {A B} (m : M G A) (k : A -> IO G B)
    (g g' : G) (e : exn) (i : list event) (o : str) :
  m g = (Raised e, g') ->
  io_bind (call m) k {| w_rng := g; w_stdin := i; w_stdout := o |}
  = (Err (Exn e), {| w_rng := g'; w_stdin := i; w_stdout := o |}).
Proof. intros E. unfold io_bind, call. cbn [w_rng]. rewrite E. reflexivity. Qed.

End Passes.

Ltac steps :=
  repeat (first [rewrite step_print | rewrite step_input]; cbv beta).

Ltac same_text :=
  cbn [concat]; rewrite ?app_nil_r; repeat rewrite <- app_assoc; reflexivity.

(** X13. A length that [int] rejects ends the pass at once: the message
    of the [ValueError] is printed after "Error: ", none of the other
    questions is asked, the random source is left alone, and the loop
    goes on with the next input line. *)
Theorem iteration_bad_length
    {G : Type} `{RandomSource G} `{UnicodeData} `{Builtins}
    (answer msg : str) (g : G) (rest : list event) (o : str) :
  answer <> [] -> int_of_str answer = inr msg ->
  iteration {| w_rng := g; w_stdin := Line answer :: rest; w_stdout := o |}
  = (Ok Continue,
     {| w_rng := g; w_stdin := rest;
        w_stdout := o ++ concat [nl ++ lit "Password Options:" ++ nl;
                                 lit "Enter password length (default 12): ";
                                 lit "Error: " ++ msg ++ nl] |}).
Proof.
  intros Hne E. unfold iteration, try_body. steps.
  rewrite (step_int_or_error answer msg) by assumption.
  steps. unfold io_ret. do 2 f_equal. same_text.
Qed.

Lemma iteration_bad_length_witness :
  fst (iteration (start 42%N [Line (lit "twelve"); Line (lit "12")])) = Ok Continue.
Proof.
  rewrite (iteration_bad_length (lit "twelve")
             (lit "invalid literal for int() with base 10: 'twelve'")
             42%N [Line (lit "12")] []); [reflexivity | discriminate | reflexivity].
Defined.

(** X14. With "n" answered to all four class questions and a count of
    at least 1, the pass prints the heading and then
    "Error: At least one character type must be selected!"; nothing is
    generated, the random source is left alone, and the loop goes on
    without asking whether to generate more. *)
Theorem iteration_no_class
    {G : Type} `{RandomSource G} `{UnicodeData} `{Builtins}
    (a_length a_lower a_upper a_digits a_symbols a_count : str) (n count : Z)
    (g : G) (rest : list event) (o : str) :
  reads_int a_length 12 n ->
  says_no a_lower = true -> says_no a_upper = true ->
  says_no a_digits = true -> says_no a_symbols = true ->
  reads_int a_count 1 count ->
  1 <= count ->
  iteration {| w_rng := g;
               w_stdin := Line a_length :: Line a_lower :: Line a_upper
                          :: Line a_digits :: Line a_symbols :: Line a_count :: rest;
               w_stdout := o |}
  = (Ok Continue,
     {| w_rng := g; w_stdin := rest;
        w_stdout :=
          o ++ concat [nl ++ lit "Password Options:" ++ nl;
                       lit "Enter password length (default 12): ";
                       nl ++ lit "Character types to include:" ++ nl;
                       lit "Include lowercase letters? (Y/n): ";
                       lit "Include uppercase letters? (Y/n): ";
                       lit "Include numbers? (Y/n): ";
                       lit "Include symbols? (Y/n): ";
                       lit "How many passwords to generate? (default 1): ";
                       nl ++ lit " Generated Password"
                          ++ (if count >? 1 then lit "s" else lit "") ++ lit ":" ++ nl;
                       str_mul (lit "-") 40 ++ nl;
                       lit "Error: At least one character type must be selected!" ++ nl] |}).
Proof.
  intros Hn Hl Hu Hd Hs Hc Hcount. unfold says_no in *.
  unfold iteration, try_body. steps.
  rewrite (step_int_or a_length 12 n) by assumption. steps.
  rewrite (step_int_or a_count 1 count) by assumption. steps.
  rewrite Hl, Hu, Hd, Hs. cbn [negb].
  destruct (count =? 1).
  - rewrite (step_call_raised _ _ g g _ _ _ (generate_password_invalid n g)).
    steps. unfold io_ret. do 2 f_equal. same_text.
  - rewrite (step_call_raised _ _ g g _ _ _
               (generate_multiple_passwords_invalid count n
                  (flags false false false false) g eq_refl Hcount)).
    steps. unfold io_ret. do 2 f_equal. same_text.
Qed.

Lemma iteration_no_class_witness :
  fst (iteration (start 42%N [Line (lit "8"); Line (lit "n"); Line (lit "N");
                              Line (lit "n"); Line (lit "n"); Line (lit "3")]))
  = Ok Continue.
Proof.
  rewrite (iteration_no_class (lit "8") (lit "n") (lit "N") (lit "n") (lit "n") (lit "3")
             8 3 42%N [] []);
    [reflexivity | right; split; [discriminate | reflexivity] | reflexivity | reflexivity
     | reflexivity | reflexivity | right; split; [discriminate | reflexivity] | lia].
Defined.

(** X15. With a count of 0 or less the [try] prints the heading, in the
    singular, and the rule, and nothing else: no password is generated,
    the random source is left alone, and no error is reported even when
    no class is selected. *)
Theorem try_body_no_password
    {G : Type} `{RandomSource G} `{UnicodeData} `{Builtins}
    (a_length a_lower a_upper a_digits a_symbols a_count : str) (n count : Z)
    (g : G) (rest : list event) (o : str) :
  reads_int a_length 12 n ->
  reads_int a_count 1 count ->
  count <= 0 ->
  try_body {| w_rng := g;
              w_stdin := Line a_length :: Line a_lower :: Line a_upper
                         :: Line a_digits :: Line a_symbols :: Line a_count :: rest;
              w_stdout := o |}
  = (Ok tt,
     {| w_rng := g; w_stdin := rest;
        w_stdout :=
          o ++ concat [nl ++ lit "Password Options:" ++ nl;
                       lit "Enter password length (default 12): ";
                       nl ++ lit "Character types to include:" ++ nl;
                       lit "Include lowercase letters? (Y/n): ";
                       lit "Include uppercase letters? (Y/n): ";
                       lit "Include numbers? (Y/n): ";
                       lit "Include symbols? (Y/n): ";
                       lit "How many passwords to generate? (default 1): ";
                       nl ++ lit " Generated Password:" ++ nl;
                       str_mul (lit "-") 40 ++ nl] |}).
Proof.
  intros Hn Hc Hcount. unfold try_body. steps.
  rewrite (step_int_or a_length 12 n) by assumption. steps.
  rewrite (step_int_or a_count 1 count) by assumption. steps.
  replace (count >? 1) with false by lia.
  replace (count =? 1) with false by lia.
  rewrite (step_call _ _ g g [] _ _
             (generate_multiple_passwords_empty count n _ g Hcount)).
  cbn [enumerate io_for]. unfold io_ret. do 2 f_equal.
  change (lit "") with (@nil char). same_text.
Qed.

Lemma try_body_no_password_witness :
  fst (try_body (start 42%N [Line (lit ""); Line (lit "n"); Line (lit "n");
                             Line (lit "n"); Line (lit "n"); Line (lit "0")]))
  = Ok tt.
Proof.
  rewrite (try_body_no_password (lit "") (lit "n") (lit "n") (lit "n") (lit "n") (lit "0")
             12 0 42%N [] []);
    [reflexivity | left; split; reflexivity | right; split; [discriminate | reflexivity]
     | lia].
Defined.

Lemma try_body_single
    {G : Type} `{RandomSource G} `{UnicodeData} `{Builtins}
    (a_length a_lower a_upper a_digits a_symbols a_count : str) (n : Z)
    (g : G) (rest : list event) (o : str) :
  reads_int a_length 12 n ->
  reads_int a_count 1 1 ->
  negb (says_no a_upper) || negb (says_no a_lower)
  || negb (says_no a_digits) || negb (says_no a_symbols) = true ->
  exists password g' report,
    generate_password n (negb (says_no a_upper)) (negb (says_no a_lower))
      (negb (says_no a_digits)) (negb (says_no a_symbols)) g = (Returned password, g') /\
    check_password_strength password g' = (Returned report, g') /\
    try_body {| w_rng := g;
                w_stdin := Line a_length :: Line a_lower :: Line a_upper
                           :: Line a_digits :: Line a_symbols :: Line a_count :: rest;
                w_stdout := o |}
    = (Ok tt,
       {| w_rng := g'; w_stdin := rest;
          w_stdout :=
            o ++ concat [nl ++ lit "Password Options:" ++ nl;
                         lit "Enter password length (default 12): ";
                         nl ++ lit "Character types to include:" ++ nl;
                         lit "Include lowercase letters? (Y/n): ";
                         lit "Include uppercase letters? (Y/n): ";
                         lit "Include numbers? (Y/n): ";
                         lit "Include symbols? (Y/n): ";
                         lit "How many passwords to generate? (default 1): ";
                         nl ++ lit " Generated Password:" ++ nl;
                         str_mul (lit "-") 40 ++ nl;
                         lit "Password: " ++ password ++ nl;
                         lit "Strength: " ++ strength report ++ lit " ("
                           ++ str_of_int (score report) ++ lit "/4)" ++ nl;
                         lit "Length: " ++ str_of_int (Z.max 0 n)
                           ++ lit " characters" ++ nl] |}).
Proof.
  intros Hn Hc Hsel.
  destruct (generate_password_valid n _ _ _ _ g Hsel) as (pw & g' & E & Hlen & _).
  exists pw, g'. eexists. split; [exact E|]. split; [reflexivity|].
  unfold try_body. steps.
  rewrite (step_int_or a_length 12 n) by assumption. steps.
  rewrite (step_int_or a_count 1 1) by assumption. steps.
  change (1 >? 1) with false. change (1 =? 1) with true. cbv iota.
  fold (says_no a_lower) (says_no a_upper) (says_no a_digits) (says_no a_symbols).
  rewrite (step_call _ _ g g' pw _ _ E). steps.
  erewrite step_call by reflexivity. steps.
  unfold print. cbn [w_rng w_stdin w_stdout length score strength].
  replace (len pw) with (Z.max 0 n) by (unfold len; lia).
  do 2 f_equal. change (lit "") with (@nil char). same_text.
Qed.

(** X16. A pass for one password: with the count left empty or read as
    1 and a class selected, the [try] passes the answers to
    [generate_password], uppercase and lowercase in the order of its
    parameters, and prints the password, its label with the score out of
    4, and its length, which is 0 for a negative request. *)
Theorem try_body_single_password
    {G : Type} `{RandomSource G} `{UnicodeData} `{Builtins}
    (a_length a_lower a_upper a_digits a_symbols a_count : str) (n : Z)
    (g : G) (rest : list event) (o : str) :
  reads_int a_length 12 n ->
  reads_int a_count 1 1 ->
  negb (says_no a_upper) || negb (says_no a_lower)
  || negb (says_no a_digits) || negb (says_no a_symbols) = true ->
  exists password g' report,
    generate_password n (negb (says_no a_upper)) (negb (says_no a_lower))
      (negb (says_no a_digits)) (negb (says_no a_symbols)) g = (Returned password, g') /\
    check_password_strength password g' = (Returned report, g') /\
    try_body {| w_rng := g;
                w_stdin := Line a_length :: Line a_lower :: Line a_upper
                           :: Line a_digits :: Line a_symbols :: Line a_count :: rest;
                w_stdout := o |}
    = (Ok tt,
       {| w_rng := g'; w_stdin := rest;
          w_stdout :=
            o ++ concat [nl ++ lit "Password Options:" ++ nl;
                         lit "Enter password length (default 12): ";
                         nl ++ lit "Character types to include:" ++ nl;
                         lit "Include lowercase letters? (Y/n): ";
                         lit "Include uppercase letters? (Y/n): ";
                         lit "Include numbers? (Y/n): ";
                         lit "Include symbols? (Y/n): ";
                         lit "How many passwords to generate? (default 1): ";
                         nl ++ lit " Generated Password:" ++ nl;
                         str_mul (lit "-") 40 ++ nl;
                         lit "Password: " ++ password ++ nl;
                         lit "Strength: " ++ strength report ++ lit " ("
                           ++ str_of_int (score report) ++ lit "/4)" ++ nl;
                         lit "Length: " ++ str_of_int (Z.max 0 n)
                           ++ lit " characters" ++ nl] |}).
Proof.
  intros Hn Hc Hsel. apply try_body_single; assumption.
Qed.

Lemma try_body_single_password_witness :
  exists password,
    fst (generate_password 8 true false true true 42%N) = Returned password.
Proof.
  destruct (try_body_single_password (lit "8") (lit "n") (lit "y") (lit "") (lit "yes")
              (lit "") 8 42%N [] [])
    as (password & g' & report & E & _).
  - right. split; [discriminate | reflexivity].
  - left. split; reflexivity.
  - reflexivity.
  - exists password. change (negb (says_no (lit "y"))) with true in E.
    change (negb (says_no (lit "n"))) with false in E.
    change (negb (says_no (lit ""))) with true in E.
    change (negb (says_no (lit "yes"))) with true in E.
    rewrite E. reflexivity.
Defined.

Section BatchLines.
Context {G : Type} `{RandomSource G} `{UnicodeData} `{Builtins}.

Lemma io_bind_assoc {A B C} (m : IO G A) (k1 : A -> IO G B) (k2 : B -> IO G C)
    (w : world G) :
  io_bind (io_bind m k1) k2 w = io_bind m (fun a => io_bind (k1 a) k2) w.
Proof. unfold io_bind. destruct (m w) as [[a|e] w1]; reflexivity. Qed.

Lemma io_for_batch (passwords : list str) (i : Z) (g : G) (rest : list event) (o : str) :
  io_for (enumerate passwords i)
    (fun '(i, pwd) =>
       report <~ call (check_password_strength pwd) ;;
       print (format_d 2 i ++ lit ". " ++ pwd
              ++ lit " (Strength: " ++ strength report ++ lit ")"))
    {| w_rng := g; w_stdin := rest; w_stdout := o |}
  = (Ok tt, {| w_rng := g; w_stdin := rest;
               w_stdout := o ++ concat (map batch_line (enumerate passwords i)) |}).
Proof.
  revert i o. induction passwords as [|pwd passwords IH]; intros i o.
  - cbn [enumerate io_for map concat]. rewrite app_nil_r. reflexivity.
  - cbn [enumerate io_for map concat]. cbv beta iota.
    rewrite io_bind_assoc. erewrite step_call by reflexivity. cbv beta.
    rewrite step_print. cbv beta. rewrite IH. do 2 f_equal.
    unfold batch_line, label_of.
    cbn [fst check_password_strength ret strength]. same_text.
Qed.

End BatchLines.

(** X17. A pass for several passwords: with a count of 2 or more and a
    class selected, the [try] prints the heading in the plural and then
    one line for each password of the batch, in order, numbered from 1
    in a field of width 2, with the password and its label. *)
Theorem try_body_batch
    {G : Type} `{RandomSource G} `{UnicodeData} `{Builtins}
    (a_length a_lower a_upper a_digits a_symbols a_count : str) (n count : Z)
    (g : G) (rest : list event) (o : str) :
  reads_int a_length 12 n ->
  reads_int a_count 1 count ->
  2 <= count ->
  negb (says_no a_upper) || negb (says_no a_lower)
  || negb (says_no a_digits) || negb (says_no a_symbols) = true ->
  exists passwords g',
    generate_multiple_passwords count n
      (flags (negb (says_no a_upper)) (negb (says_no a_lower))
         (negb (says_no a_digits)) (negb (says_no a_symbols))) g
      = (Returned passwords, g') /\
    len passwords = count /\
    try_body {| w_rng := g;
                w_stdin := Line a_length :: Line a_lower :: Line a_upper
                           :: Line a_digits :: Line a_symbols :: Line a_count :: rest;
                w_stdout := o |}
    = (Ok tt,
       {| w_rng := g'; w_stdin := rest;
          w_stdout :=
            o ++ concat [nl ++ lit "Password Options:" ++ nl;
                         lit "Enter password length (default 12): ";
                         nl ++ lit "Character types to include:" ++ nl;
                         lit "Include lowercase letters? (Y/n): ";
                         lit "Include uppercase letters? (Y/n): ";
                         lit "Include numbers? (Y/n): ";
                         lit "Include symbols? (Y/n): ";
                         lit "How many passwords to generate? (default 1): ";
                         nl ++ lit " Generated Passwords:" ++ nl;
                         str_mul (lit "-") 40 ++ nl]
              ++ concat (map batch_line (enumerate passwords 1)) |}).
Proof.
  intros Hn Hc Hcount Hsel.
  destruct (generate_multiple_passwords_valid count n
              (flags (negb (says_no a_upper)) (negb (says_no a_lower))
                 (negb (says_no a_digits)) (negb (says_no a_symbols))) g Hsel)
    as (pws & g' & E & Hlen & _).
  exists pws, g'. split; [exact E|]. split; [unfold len; lia|].
  unfold try_body. steps.
  rewrite (step_int_or a_length 12 n) by assumption. steps.
  rewrite (step_int_or a_count 1 count) by assumption. steps.
  replace (count >? 1) with true by lia.
  replace (count =? 1) with false by lia.
  fold (says_no a_lower) (says_no a_upper) (says_no a_digits) (says_no a_symbols).
  rewrite (step_call _ _ g g' pws _ _ E). rewrite io_for_batch.
  do 2 f_equal. same_text.
Qed.

Lemma try_body_batch_witness :
  exists passwords,
    fst (generate_multiple_passwords 3 8 (flags true true false false) 42%N)
    = Returned passwords.
Proof.
  destruct (try_body_batch (lit "8") (lit "") (lit "") (lit "n") (lit "N") (lit "3")
              8 3 42%N [] [])
    as (passwords & g' & E & _).
  - right. split; [discriminate | reflexivity].
  - right. split; [discriminate | reflexivity].
  - lia.
  - reflexivity.
  - exists passwords.
    change (negb (says_no (lit ""))) with true in E.
    change (negb (says_no (lit "n"))) with false in E.
    change (negb (says_no (lit "N"))) with false in E.
    rewrite E. reflexivity.
Defined.

(** X18. Ctrl-C at the first question ends [main] normally, after the
    farewell line; Ctrl-C at the question that follows a pass is not
    caught and leaves the loop as a [KeyboardInterrupt]. *)
Theorem keyboard_interrupt
    {G : Type} `{RandomSource G} `{UnicodeData} `{Builtins}
    (passes : nat) (g : G) (rest : list event) (o : str) :
  main (S passes) {| w_rng := g; w_stdin := CtrlC :: rest; w_stdout := o |}
  = Some (Ok tt,
          {| w_rng := g; w_stdin := rest;
             w_stdout :=
               o ++ concat [lit "Welcome to the Python Password Generator!" ++ nl;
                            str_mul (lit "=") 40 ++ nl;
                            nl ++ lit "Password Options:" ++ nl;
                            lit "Enter password length (default 12): ";
                            nl ++ nl ++ lit " Thanks for using the password generator!"
                               ++ nl] |}) /\
  (forall (w : world G) (g' : G) (o' : str),
     try_body w = (Ok tt, {| w_rng := g'; w_stdin := CtrlC :: rest; w_stdout := o' |}) ->
     while_true (S passes) w
     = Some (Err KeyboardInterrupt,
             {| w_rng := g'; w_stdin := rest;
                w_stdout := o' ++ nl ++ lit "Generate more passwords? (Y/n): " |})).
Proof.
  split.
  - unfold main. steps. unfold print. cbn [w_rng w_stdin w_stdout while_true].
    unfold iteration, try_body. steps. rewrite step_interrupt. steps.
    unfold io_ret. do 3 f_equal. same_text.
  - intros w g' o' E. cbn [while_true]. unfold iteration. rewrite E.
    unfold ask_again. rewrite step_interrupt. reflexivity.
Qed.

(** X19. Pressing Enter at all six questions and then declining another
    round is a complete session: [main] generates one password of
    length 12 from all four classes, prints it with its strength and
    length between the banner and the farewell line, and returns. *)
Theorem main_default_session
    {G : Type} `{RandomSource G} `{UnicodeData} `{Builtins}
    (passes : nat) (a_end : str) (g : G) (rest : list event) (o : str) :
  says_no (lit "") = false ->
  says_no a_end = true ->
  exists password g' report,
    generate_password 12 true true true true g = (Returned password, g') /\
    check_password_strength password g' = (Returned report, g') /\
    main (S passes)
      {| w_rng := g;
         w_stdin := Line (lit "") :: Line (lit "") :: Line (lit "") :: Line (lit "")
                    :: Line (lit "") :: Line (lit "") :: Line a_end :: rest;
         w_stdout := o |}
    = Some (Ok tt,
       {| w_rng := g'; w_stdin := rest;
          w_stdout :=
            o ++ concat [lit "Welcome to the Python Password Generator!" ++ nl;
                         str_mul (lit "=") 40 ++ nl;
                         nl ++ lit "Password Options:" ++ nl;
                         lit "Enter password length (default 12): ";
                         nl ++ lit "Character types to include:" ++ nl;
                         lit "Include lowercase letters? (Y/n): ";
                         lit "Include uppercase letters? (Y/n): ";
                         lit "Include numbers? (Y/n): ";
                         lit "Include symbols? (Y/n): ";
                         lit "How many passwords to generate? (default 1): ";
                         nl ++ lit " Generated Password:" ++ nl;
                         str_mul (lit "-") 40 ++ nl;
                         lit "Password: " ++ password ++ nl;
                         lit "Strength: " ++ strength report ++ lit " ("
                           ++ str_of_int (score report) ++ lit "/4)" ++ nl;
                         lit "Length: 12 characters" ++ nl;
                         nl ++ lit "Generate more passwords? (Y/n): ";
                         lit "Thanks for using the password generator!" ++ nl] |}).
Proof.
  intros Hyes Hno.
  assert (Hint12 : reads_int (lit "") 12 12) by (left; split; reflexivity).
  assert (Hint1 : reads_int (lit "") 1 1) by (left; split; reflexivity).
  assert (Hsel : negb (says_no (lit "")) || negb (says_no (lit ""))
                 || negb (says_no (lit "")) || negb (says_no (lit "")) = true)
    by (rewrite Hyes; reflexivity).
  destruct (try_body_single (lit "") (lit "") (lit "") (lit "") (lit "") (lit "") 12 g
              (Line a_end :: rest)
              (o ++ (lit "Welcome to the Python Password Generator!" ++ nl)
                 ++ str_mul (lit "=") 40 ++ nl) Hint12 Hint1 Hsel)
    as (pw & g' & r & Egen & Echeck & Etry).
  rewrite Hyes in Egen. cbn [negb] in Egen.
  exists pw, g', r. split; [exact Egen|]. split; [exact Echeck|].
  unfold main. steps. unfold print. cbn [w_rng w_stdin w_stdout while_true].
  unfold iteration.
  replace (o ++ lit "Welcome to the Python Password Generator!" ++ nl)
    with (o ++ (lit "Welcome to the Python Password Generator!" ++ nl))
    by reflexivity.
  rewrite <- app_assoc. rewrite Etry.
  unfold ask_again. steps. unfold says_no in Hno. rewrite Hno. steps.
  unfold io_ret. do 3 f_equal.
  change (str_of_int (Z.max 0 12)) with (lit "12").
  change (lit "Length: 12 characters") with (lit "Length: " ++ lit "12" ++ lit " characters").
  same_text.
Qed.

Lemma main_default_session_witness :
  exists password,
    fst (generate_password 12 true true true true 42%N) = Returned password.
Proof.
  destruct (main_default_session 1 (lit "N") 42%N [] [])
    as (password & g' & report & E & _).
  - reflexivity.
  - reflexivity.
  - exists password. rewrite E. reflexivity.
Defined.

